(** * Olympic Games dashboard: the filter-and-aggregate pipeline

    A shallow embedding of the data pipeline of the Streamlit dashboards
    [dashboard_olympicgames2.py] / [olymipic_dashboard_v2.py] (the two differ
    in the language of their labels only) and of the filter block of
    [app.py] / [app_corregido.py].

    A pandas [DataFrame] is a list of column labels together with the list
    of its records, each record a finite map from column label to cell (what
    [df.to_dict('records')] returns).  The frames of the scripts carry the
    [RangeIndex] that [read_csv] and [reset_index] give them and every
    series assigned to a frame is computed from that same frame, so row
    labels coincide with positions and are left implicit. *)

From Stdlib Require Import ZArith QArith Qminmax Ascii String List Permutation Sorted.
From Stdlib Require Import DecimalString DecimalNat.
From stdpp Require Import base option list gmap strings sorting.

Local Open Scope string_scope.
Local Open Scope Z_scope.

(** ** Cells *)

(** A cell of a frame: a missing value, a string (object dtype), an [int64],
    a [float64] (idealised as a rational) or a boolean. *)
Inductive cell :=
| NaN
| Str (s : string)
| Int (z : Z)
| Float (q : Q)
| Bool (b : bool).

#[global] Instance Q_eq_dec : EqDecision Q.
Proof. solve_decision. Defined.
#[global] Instance cell_eq_dec : EqDecision cell.
Proof. solve_decision. Defined.
#[global] Instance cell_inhabited : Inhabited cell := populate NaN.

(** [Series.notna()] / [pd.notna]. *)
Definition notna (c : cell) : bool :=
  match c with NaN => false | _ => true end.

Definition is_str (c : cell) : bool :=
  match c with Str _ => true | _ => false end.

(** The numeric value of a cell, when it has one. *)
Definition to_Q (c : cell) : option Q :=
  match c with
  | Int z => Some (inject_Z z)
  | Float q => Some q
  | Bool b => Some (inject_Z (Z.b2z b))
  | NaN | Str _ => None
  end.

(** [series == value]: strings compare as strings, numbers by value, and a
    missing value is equal to nothing. *)
Definition eq_scalar (c v : cell) : bool :=
  match c, v with
  | Str s, Str t => String.eqb s t
  | _, _ =>
      match to_Q c, to_Q v with
      | Some x, Some y => Qeq_bool x y
      | _, _ => false
      end
  end.

(** [series == 'literal'] and [series != 'literal'] (the element-wise
    negation, true on a missing value). *)
Definition eq_str (c : cell) (s : string) : bool := eq_scalar c (Str s).
Definition ne_str (c : cell) (s : string) : bool := negb (eq_str c s).

(** [series.isin(values)]: as [==], except that a missing cell is found
    when one of the values is missing too. *)
Definition isin (c : cell) (values : list cell) : bool :=
  match c with
  | NaN => existsb (λ v, negb (notna v)) values
  | _ => existsb (eq_scalar c) values
  end.

(** [series >= z], [series <= z] and [series > z] on a numeric column: a
    comparison with a missing value is false. *)
Definition ge_scalar (c : cell) (z : Z) : bool :=
  match to_Q c with Some q => Qle_bool (inject_Z z) q | None => false end.
Definition le_scalar (c : cell) (z : Z) : bool :=
  match to_Q c with Some q => Qle_bool q (inject_Z z) | None => false end.
Definition gt_scalar (c : cell) (z : Z) : bool :=
  match to_Q c with Some q => negb (Qle_bool q (inject_Z z)) | None => false end.

(** ** Frames *)

Abbreviation row := (gmap string cell).

Record DataFrame := mkFrame {
  columns : list string;
  records : list row
}.

(** [pd.DataFrame()] and [pd.DataFrame(columns=cols)]. *)
Definition empty_frame : DataFrame := mkFrame [] [].
Definition empty_with (cols : list string) : DataFrame := mkFrame cols [].

(** [df.empty]: some axis has length zero. *)
Definition is_empty (df : DataFrame) : bool :=
  match columns df, records df with
  | [], _ | _, [] => true
  | _, _ => false
  end.

(** [c in df.columns]. *)
Definition has_column (df : DataFrame) (c : string) : bool :=
  bool_decide (c ∈ columns df).

(** The cells of column [c], top to bottom. *)
Definition cells_of (c : string) (rs : list row) : list cell :=
  (λ r, r !!! c) <$> rs.

(** [df[mask]] for a boolean mask computed row by row: the selected
    records, in their order, under the same columns. *)
Definition loc_mask (mask : row → bool) (df : DataFrame) : DataFrame :=
  mkFrame (columns df) (filter (λ r, mask r) (records df)).

(** [df[c] = values] with the values computed row by row: the column is
    replaced, or appended when it is new. *)
Definition setitem (c : string) (value : row → cell) (df : DataFrame) : DataFrame :=
  mkFrame (if has_column df c then columns df else columns df ++ [c])
          ((λ r, <[c := value r]> r) <$> records df).

(** [df.head(n)]. *)
Definition head (n : nat) (df : DataFrame) : DataFrame :=
  mkFrame (columns df) (take n (records df)).

(** A column read from a delimited file is of object dtype as soon as one
    of its cells is not a number. *)
Definition numeric_col (df : DataFrame) (c : string) : bool :=
  forallb (λ r, negb (is_str (r !!! c))) (records df).

(** [Series.unique()]: the distinct values in order of first appearance,
    a missing value included. *)
Definition unique {A} `{EqDecision A} (l : list A) : list A :=
  reverse (remove_dups (reverse l)).

Definition dropna_cells (l : list cell) : list cell :=
  filter (λ c, notna c) l.

(** [Series.nunique()]: the number of distinct values that are present. *)
Definition nunique (l : list cell) : Z :=
  Z.of_nat (length (remove_dups (dropna_cells l))).

(** ** Exceptions *)

Inductive exn :=
| FileNotFoundError (msg : string)
| KeyError (col : string)
| TypeError (msg : string)
| OtherError (msg : string)
| StopException.

(** [str(e)]. *)
Definition str_exn (e : exn) : string :=
  match e with
  | FileNotFoundError m | TypeError m | OtherError m => m
  | KeyError c => "'" ++ c ++ "'"
  | StopException => ""
  end.

(** [except Exception] catches everything but the script-control exception
    that [st.stop()] raises. *)
Definition is_Exception (e : exn) : bool :=
  match e with StopException => false | _ => true end.

Inductive Exc (A : Type) :=
| Ok (a : A)
| Raise (e : exn).
Arguments Ok {A} a.
Arguments Raise {A} e.

#[global] Instance Exc_ret : MRet Exc := λ A a, Ok a.
#[global] Instance Exc_bind : MBind Exc := λ A B f m,
  match m with Ok a => f a | Raise e => Raise e end.

(** [df[c]] on a label that is not a column raises [KeyError]. *)
Definition require (df : DataFrame) (c : string) : Exc unit :=
  if has_column df c then Ok () else Raise (KeyError c).

Fixpoint require_all (df : DataFrame) (cs : list string) : Exc unit :=
  match cs with
  | [] => Ok ()
  | c :: cs => _ ← require df c; require_all df cs
  end.

(** An ordering comparison of an object column with a number raises
    [TypeError]. *)
Definition require_numeric (df : DataFrame) (c : string) : Exc unit :=
  if numeric_col df c then Ok ()
  else Raise (TypeError "'>=' not supported between instances of 'str' and 'int'").

(** [df.dropna(subset=cols)]: the records with a value in every listed
    column. *)
Definition no_nulls (cols : list string) (r : row) : bool :=
  forallb (λ c, notna (r !!! c)) cols.
Definition dropna (cols : list string) (df : DataFrame) : Exc DataFrame :=
  _ ← require_all df cols;
  Ok (loc_mask (no_nulls cols) df).

(** [df[[c1, ..., cn]]]: the listed columns only. *)
Definition project (cols : list string) (r : row) : row :=
  list_to_map ((λ c, (c, r !!! c)) <$> cols).
Definition getitem_cols (cols : list string) (df : DataFrame) : Exc DataFrame :=
  _ ← require_all df cols;
  Ok (mkFrame cols (project cols <$> records df)).

(** ** Sorting *)

(** Insertion from the left end: a new element goes before the first
    element it is allowed to precede, hence before its equals. *)
Fixpoint insert_sorted {A} (leb : A → A → bool) (x : A) (l : list A) : list A :=
  match l with
  | [] => [x]
  | y :: l' => if leb x y then x :: l else y :: insert_sorted leb x l'
  end.

(** A stable sort: equal elements keep their relative order. *)
Definition stable_sort {A} (leb : A → A → bool) (l : list A) : list A :=
  foldr (insert_sorted leb) [] l.

(** The order [sort_values(by=..., ascending=...)] has to establish, with
    missing keys last ([na_position='last']). *)
Definition precedes_b (key : row → option Q) (ascending : bool) (a b : row) : bool :=
  match key a, key b with
  | Some x, Some y => if ascending then Qle_bool x y else Qle_bool y x
  | Some _, None => true
  | None, Some _ => false
  | None, None => true
  end.
Definition precedes (key : row → option Q) (ascending : bool) (a b : row) : Prop :=
  precedes_b key ascending a b = true.

(** The [kind=] of sorting algorithm behind [sort_values]: a way of
    rearranging records by a key. *)
Class SortKind := sort_rows : (row → option Q) → bool → list row → list row.

(** What the library promises of every kind: the result is a rearrangement
    of the records, in the requested order.  Only [kind='mergesort'] and
    [kind='stable'] promise more, namely that records with equal keys stay
    in their original order. *)
Definition sorts (K : SortKind) : Prop :=
  (∀ key asc l, sort_rows key asc l ≡ₚ l)
  ∧ (∀ key asc l, StronglySorted (precedes key asc) (sort_rows key asc l)).

(** Two kinds: a stable one, and one that is not stable (it sorts the
    records taken from the last to the first). *)
Definition kind_stable : SortKind :=
  λ key asc l, stable_sort (precedes_b key asc) l.

Definition sort_values `{SortKind} (by_ : string) (ascending : bool) (df : DataFrame)
  : Exc DataFrame :=
  _ ← require df by_;
  Ok (mkFrame (columns df) (sort_rows (λ r, to_Q (r !!! by_)) ascending (records df))).

(** [df.nlargest(n, by)] with its default [keep='first']: among equal
    values the first occurrences win.  Rows without a value are left out
    (the column ranked by the script is a count and always has one). *)
Definition nlargest (n : nat) (by_ : string) (df : DataFrame) : DataFrame :=
  mkFrame (columns df)
    (take n (stable_sort (precedes_b (λ r, to_Q (r !!! by_)) false)
               (filter (λ r, notna (r !!! by_)) (records df)))).

(** ** Grouping *)

(** The order of group keys: numbers before strings, numbers by value and
    strings by code point. *)
Definition key_leb (a b : cell) : bool :=
  match to_Q a, to_Q b with
  | Some x, Some y => Qle_bool x y
  | Some _, None => true
  | None, Some _ => false
  | None, None =>
      match a, b with
      | Str s, Str t => String.leb s t
      | _, _ => true
      end
  end.

(** [df.groupby(by)]: one group per value that is present ([dropna=True]),
    in sorted order ([sort=True]); a group holds the records of its key in
    their original order. *)
Definition group_keys (by_ : string) (df : DataFrame) : list cell :=
  stable_sort key_leb (unique (dropna_cells (cells_of by_ (records df)))).
Definition group (by_ : string) (k : cell) (df : DataFrame) : list row :=
  filter (λ r, r !!! by_ = k) (records df).

(** ['sum'] of a boolean (or integer) column. *)
Definition int_of (c : cell) : Z :=
  match c with Int z => z | Bool b => Z.b2z b | _ => 0 end.
Definition sum_int (l : list cell) : Z :=
  foldr (λ c acc, int_of c + acc) 0 l.

(** [(x == 'literal').sum()]. *)
Definition count_eq (s : string) (l : list cell) : Z :=
  sum_int ((λ c, Bool (eq_str c s)) <$> l).

(** The grouped mean as the library computes it: one pass over the values
    of the group with two accumulators, the number of observations and
    their running sum; a missing value updates neither. *)
Definition mean_step (acc : nat * Q) (c : cell) : nat * Q :=
  match to_Q c with
  | Some q => (S acc.1, (acc.2 + q)%Q)
  | None => acc
  end.
Definition group_mean (vals : list cell) : cell :=
  let '(nobs, sumx) := foldl mean_step (0%nat, 0%Q) vals in
  match nobs with
  | O => NaN
  | S _ => Float (Qred (sumx / inject_Z (Z.of_nat nobs)))
  end.

(** ** Record Store *)

(** What [pd.read_csv] finds at a path: nothing, something it cannot
    parse or read, or a table. *)
Inductive csv_file :=
| Missing
| Unreadable (msg : string)
| Table (df : DataFrame).

Definition read_csv (filepath : string) (file : csv_file) : Exc DataFrame :=
  match file with
  | Missing =>
      Raise (FileNotFoundError
               ("[Errno 2] No such file or directory: '" ++ filepath ++ "'"))
  | Unreadable msg => Raise (OtherError msg)
  | Table df => Ok df
  end.

(** Calls into the Streamlit front end made by the pipeline. *)
Inductive st_call :=
| st_error (msg : string)
| st_success (msg : string)
| st_warning (msg : string).

(** A value together with the messages shown while computing it. *)
Definition UI (A : Type) : Type := A * list st_call.

(** [f"{n:,}"]: decimal digits with a comma between groups of three. *)
Fixpoint group_digits (rev_digits : list ascii) (k : nat) : list ascii :=
  match rev_digits with
  | [] => []
  | d :: ds =>
      match k, ds with
      | 2%nat, _ :: _ => d :: ","%char :: group_digits ds 0
      | _, _ => d :: group_digits ds (S k)
      end
  end.
Definition format_thousands (n : nat) : string :=
  string_of_list_ascii
    (reverse (group_digits
                (reverse (list_ascii_of_string (NilZero.string_of_uint (Nat.to_uint n))))
                0)).

Definition essential_cols : list string :=
  ["year"; "type"; "noc"; "medal"; "age"; "gender"; "discipline_grouped"; "name";
   "discipline"].

Definition coord_cols : list string := ["noc"; "country"; "latitude"; "longitude"].

(** [try: body except FileNotFoundError: h1 except Exception as e: h2]. *)
Definition try_except {A} (body : Exc A) (not_found : A) (other : exn → A) : Exc A :=
  match body with
  | Ok a => Ok a
  | Raise (FileNotFoundError _) => Ok not_found
  | Raise e => if is_Exception e then Ok (other e) else Raise e
  end.

Definition load_data (filepath : string) (file : csv_file) : Exc (UI DataFrame) :=
  try_except
    (df ← read_csv filepath file;
     let missing_cols := filter (λ col, col ∉ columns df) essential_cols in
     if negb (bool_decide (missing_cols = [])) then
       Ok (empty_frame,
           [st_error ("Missing essential columns in '" ++ filepath ++ "': "
                      ++ String.concat ", " missing_cols)])
     else
       Ok (df,
           [st_success ("File '" ++ filepath ++ "' loaded successfully ("
                        ++ format_thousands (length (records df)) ++ " rows).")]))
    (empty_frame,
     [st_error ("Error: File '" ++ filepath
                ++ "' not found. Make sure it's in the same directory as the script.")])
    (λ e, (empty_frame,
           [st_error ("Error loading or processing '" ++ filepath ++ "': " ++ str_exn e)])).

Definition load_noc_coords (filepath : string) (file : csv_file) : Exc (UI DataFrame) :=
  try_except
    (df_coords ← read_csv filepath file;
     if negb (has_column df_coords "noc") || negb (has_column df_coords "country")
        || negb (has_column df_coords "latitude") || negb (has_column df_coords "longitude")
     then
       Ok (empty_with coord_cols,
           [st_error ("The file '" ++ filepath
                      ++ "' must contain the columns 'noc', 'country', 'latitude', 'longitude'.")])
     else
       df_coords ← dropna coord_cols df_coords;
       sel ← getitem_cols coord_cols df_coords;
       Ok (sel, []))
    (empty_with coord_cols,
     [st_error ("File '" ++ filepath ++ "' not found. Make sure it is in the correct path.")])
    (λ e, (empty_with coord_cols,
           [st_error ("Error loading or processing '" ++ filepath ++ "': " ++ str_exn e)])).

(** ** Filter Engine *)

(** The state of the sidebar widgets of the dashboards. *)
Record filters := mkFilters {
  selected_years : Z * Z;
  selected_type : cell;
  selected_gender : list cell
}.

(** The options of the gender multiselect: the values of the column that
    are present, in order of first appearance. *)
Definition gender_options (df_olympics : DataFrame) : list cell :=
  if has_column df_olympics "gender"
  then filter (λ g, notna g) (unique (cells_of "gender" (records df_olympics)))
  else [].

Definition year_between (lo hi : Z) (r : row) : bool :=
  ge_scalar (r !!! "year") lo && le_scalar (r !!! "year") hi.

Section Dashboard_filter.
(** The label of the "no constraint" radio option: ['All'] in
    [dashboard_olympicgames2.py], ['Todos'] in [olymipic_dashboard_v2.py]. *)
Variable all_label : string.

Definition filter_type (sel : cell) (df : DataFrame) : DataFrame :=
  if ne_str sel all_label && has_column df "type"
  then loc_mask (λ r, eq_scalar (r !!! "type") sel) df
  else df.

Definition filter_gender (sel : list cell) (df : DataFrame) : DataFrame :=
  if negb (bool_decide (sel = [])) && has_column df "gender"
  then loc_mask (λ r, isin (r !!! "gender") sel) df
  else df.

Definition df_filtered (f : filters) (df_olympics : DataFrame) : Exc DataFrame :=
  _ ← require df_olympics "year";
  _ ← require_numeric df_olympics "year";
  let df := loc_mask (year_between (selected_years f).1 (selected_years f).2) df_olympics in
  let df := filter_type (selected_type f) df in
  let df := filter_gender (selected_gender f) df in
  Ok df.

(** The conjunction of the masks that [df_filtered] applies to a frame
    with columns [cols]. *)
Definition keeps (f : filters) (cols : list string) (r : row) : bool :=
  year_between (selected_years f).1 (selected_years f).2 r
  && (if ne_str (selected_type f) all_label && bool_decide ("type" ∈ cols)
      then eq_scalar (r !!! "type") (selected_type f) else true)
  && (if negb (bool_decide (selected_gender f = [])) && bool_decide ("gender" ∈ cols)
      then isin (r !!! "gender") (selected_gender f) else true).
End Dashboard_filter.

(** The sidebar of [app.py] and [app_corregido.py]. *)
Record filtros := mkFiltros {
  tipo_juego : string;
  pais : string;
  medalla : string;
  genero : string
}.

(** [df[df[c] == sel]]. *)
Definition col_eq (c sel : string) (df : DataFrame) : Exc DataFrame :=
  _ ← require df c;
  Ok (loc_mask (λ r, eq_str (r !!! c) sel) df).

Definition df_tipo (f : filtros) (df : DataFrame) : Exc DataFrame :=
  d ← col_eq "type" (if String.eqb (tipo_juego f) "Verano" then "Summer" else "Winter") df;
  d ← (if negb (String.eqb (pais f) "Todos") then col_eq "noc" (pais f) d else Ok d);
  d ← (if negb (String.eqb (medalla f) "Todas") then col_eq "medal" (medalla f) d else Ok d);
  if negb (String.eqb (genero f) "Ambos") then col_eq "gender" (genero f) d else Ok d.

(** ** Aggregator *)

(** The column added to the filtered view before the medal tally. *)
Definition medal_present (r : row) : bool :=
  notna (r !!! "medal") && ne_str (r !!! "medal") "No Medal".

Definition add_medal_present (df : DataFrame) : Exc DataFrame :=
  _ ← require df "medal";
  Ok (setitem "medal_present" (λ r, Bool (medal_present r)) df).

Definition metrics_cols : list string :=
  ["noc"; "Total_Athletes"; "Total_Medals"; "Gold"; "Silver"; "Bronze"].

(** The five named aggregations over the group of one NOC. *)
Definition noc_metrics (df : DataFrame) (k : cell) : row :=
  let g := group "noc" k df in
  {[ "noc" := k;
     "Total_Athletes" := Int (nunique (cells_of "name" g));
     "Total_Medals" := Int (sum_int (cells_of "medal_present" g));
     "Gold" := Int (count_eq "Gold" (cells_of "medal" g));
     "Silver" := Int (count_eq "Silver" (cells_of "medal" g));
     "Bronze" := Int (count_eq "Bronze" (cells_of "medal" g)) ]}.

(** [df.groupby('noc').agg(...).reset_index()]. *)
Definition agg_by_noc (df : DataFrame) : Exc DataFrame :=
  _ ← require_all df ["noc"; "name"; "medal_present"; "medal"];
  Ok (mkFrame metrics_cols (noc_metrics df <$> group_keys "noc" df)).

(** [series.astype(int)]: integers stay, booleans and floats are
    converted, a missing value cannot be.  (A string made of digits would be
    parsed; the columns converted here never hold strings.) *)
Definition astype_int (c : cell) : Exc cell :=
  match c with
  | Int z => Ok (Int z)
  | Bool b => Ok (Int (Z.b2z b))
  | Float q => Ok (Int (Z.quot (Qnum q) (Z.pos (Qden q))))
  | NaN => Raise (OtherError "cannot convert float NaN to integer")
  | Str s => Raise (OtherError ("invalid literal for int() with base 10: '" ++ s ++ "'"))
  end.

Fixpoint astype_rows (c : string) (rs : list row) : Exc (list row) :=
  match rs with
  | [] => Ok []
  | r :: rs => v ← astype_int (r !!! c); rs' ← astype_rows c rs; Ok (<[c := v]> r :: rs')
  end.

(** [df[c] = df[c].astype(int)]. *)
Definition astype_col (c : string) (df : DataFrame) : Exc DataFrame :=
  _ ← require df c;
  rs ← astype_rows c (records df);
  Ok (mkFrame (columns df) rs).

Definition metrics_by_noc (df_filtered : DataFrame) : Exc DataFrame :=
  d ← add_medal_present df_filtered;
  m ← agg_by_noc d;
  astype_col "Total_Medals" m.

(** [metrics_by_noc.sort_values(by=sort_by, ascending=False).head(top_n)]:
    no [kind=] is given, so the default algorithm sorts. *)
Definition top_countries `{SortKind} (sort_by : string) (top_n : nat) (metrics : DataFrame)
  : Exc DataFrame :=
  s ← sort_values sort_by false metrics;
  Ok (head top_n s).

(** [df.groupby('discipline')['name'].nunique().reset_index(name='athlete_count')]. *)
Definition athletes_per_discipline (df : DataFrame) : Exc DataFrame :=
  _ ← require_all df ["discipline"; "name"];
  Ok (mkFrame ["discipline"; "athlete_count"]
        ((λ k, {[ "discipline" := k;
                  "athlete_count" := Int (nunique (cells_of "name" (group "discipline" k df))) ]})
           <$> group_keys "discipline" df)).

Definition top_disciplines_by_athletes (df : DataFrame) : Exc (list cell) :=
  a ← athletes_per_discipline df;
  Ok (cells_of "discipline" (records (nlargest 20 "athlete_count" a))).

(** [df.groupby(by)[col].mean().reset_index()], as the script calls it
    with ['discipline'] and ['age'] once it has checked that the column is
    numeric. *)
Definition mean_by (by_ col : string) (df : DataFrame) : DataFrame :=
  mkFrame [by_; col]
    ((λ k, {[ by_ := k; col := group_mean (cells_of col (group by_ k df)) ]})
       <$> group_keys by_ df).

(** The average age per discipline, for the twenty disciplines with most
    athletes; [None] when the guard on the columns sends the script to its
    warning instead. *)
Definition age_by_discipline `{SortKind} (df : DataFrame) : Exc (option DataFrame) :=
  if has_column df "age" && numeric_col df "age" && has_column df "discipline" then
    top ← top_disciplines_by_athletes df;
    let sel := loc_mask (λ r, isin (r !!! "discipline") top) df in
    s ← sort_values "age" false (mean_by "discipline" "age" sel);
    Ok (Some s)
  else Ok None.

(** ** Join Resolver *)

(** Key equality of [pd.merge]: as [==], and missing keys match each other. *)
Definition same_key (a b : cell) : bool :=
  match a, b with
  | NaN, NaN => true
  | _, _ => eq_scalar a b
  end.

(** Column labels of the merged frame: a label other than the key that
    occurs on both sides gets the suffix [_x] on the left and [_y] on the
    right. *)
Definition left_name (key : string) (rc : list string) (c : string) : string :=
  if bool_decide (c ≠ key ∧ c ∈ rc) then c ++ "_x" else c.
Definition right_name (lc : list string) (c : string) : string :=
  if bool_decide (c ∈ lc) then c ++ "_y" else c.
Definition merged_cols (key : string) (lc rc : list string) : list string :=
  (left_name key rc <$> lc) ++ (right_name lc <$> filter (λ c, c ≠ key) rc).

(** The merged record of a left record and its match, if any: without a
    match the right-hand columns are missing values. *)
Definition joined (key : string) (lc rc : list string) (l : row) (r : option row) : row :=
  list_to_map
    (((λ c, (left_name key rc c, l !!! c)) <$> lc)
     ++ ((λ c, (right_name lc c, from_option (λ r, r !!! c) NaN r))
           <$> filter (λ c, c ≠ key) rc)).

Definition matches (key : string) (l : row) (right : DataFrame) : list row :=
  filter (λ r, same_key (l !!! key) (r !!! key)) (records right).

(** [pd.merge(left, right, on=key, how='left')]. *)
Definition merge_left (key : string) (left right : DataFrame) : Exc DataFrame :=
  _ ← require left key;
  _ ← require right key;
  Ok (mkFrame (merged_cols key (columns left) (columns right))
        (records left ≫= λ l,
           match matches key l right with
           | [] => [joined key (columns left) (columns right) l None]
           | ms => joined key (columns left) (columns right) l ∘ Some <$> ms
           end)).

(** The data handed to the map: [None] when the guard on the coordinate
    table sends the script to its warning instead. *)
Definition df_map_data (metrics df_coords : DataFrame) : Exc (option DataFrame) :=
  if negb (is_empty df_coords) && has_column metrics "noc" then
    _ ← require metrics "Total_Medals";
    m ← merge_left "noc" (loc_mask (λ r, gt_scalar (r !!! "Total_Medals") 0) metrics) df_coords;
    d ← dropna ["latitude"; "longitude"] m;
    Ok (Some d)
  else Ok None.

(** ** Grouping by several columns *)

Definition key_tuple (bys : list string) (r : row) : list cell :=
  (λ c, r !!! c) <$> bys.

Fixpoint keys_leb (a b : list cell) : bool :=
  match a, b with
  | [], _ => true
  | _ :: _, [] => false
  | x :: a', y :: b' => if bool_decide (x = y) then keys_leb a' b' else key_leb x y
  end.

Definition group_keys_n (bys : list string) (df : DataFrame) : list (list cell) :=
  stable_sort keys_leb
    (unique (filter (λ k, forallb notna k) (key_tuple bys <$> records df))).

(** [df.groupby(bys)...reset_index(name=out)] for an aggregation [f] of
    each group. *)
Definition agg_n (bys : list string) (out : string) (f : list row → cell) (df : DataFrame)
  : Exc DataFrame :=
  _ ← require_all df bys;
  Ok (mkFrame (bys ++ [out])
        ((λ k, <[out := f (filter (λ r, key_tuple bys r = k) (records df))]>
                 (list_to_map (zip bys k)))
           <$> group_keys_n bys df)).

(** ** The script *)

(** Frames are Python objects: a variable of the script holds a reference,
    and an in-place operation changes the object for every holder of it. *)
Abbreviation loc := nat.

Record session := mkSession {
  heap : gmap loc DataFrame;
  shown : list st_call
}.

Definition Script (A : Type) : Type := session → Exc A * session.

#[global] Instance Script_ret : MRet Script := λ A a σ, (Ok a, σ).
#[global] Instance Script_bind : MBind Script := λ A B f m σ,
  match m σ with
  | (Ok a, σ') => f a σ'
  | (Raise e, σ') => (Raise e, σ')
  end.

(** A new object. *)
Definition new (df : DataFrame) : Script loc := λ σ,
  let ℓ := fresh (dom (heap σ)) in
  (Ok ℓ, mkSession (<[ℓ := df]> (heap σ)) (shown σ)).

Definition read (ℓ : loc) : Script DataFrame := λ σ,
  match heap σ !! ℓ with
  | Some df => (Ok df, σ)
  | None => (Raise (OtherError "name is not defined"), σ)
  end.

(** An in-place change of the object at [ℓ]. *)
Definition update (ℓ : loc) (df : DataFrame) : Script unit := λ σ,
  (Ok (), mkSession (<[ℓ := df]> (heap σ)) (shown σ)).

Definition lift {A} (e : Exc A) : Script A := λ σ, (e, σ).

Definition st (c : st_call) : Script unit := λ σ,
  (Ok (), mkSession (heap σ) (shown σ ++ [c])).

(** [st.stop()]. *)
Definition st_stop {A} : Script A := λ σ, (Raise StopException, σ).

(** [x = x[mask]] under a condition: the variable is bound to a new object
    when the condition holds and keeps its object otherwise. *)
Definition rebind (cond : bool) (f : DataFrame → DataFrame) (ℓ : loc) : Script loc :=
  if cond then d ← read ℓ; new (f d) else mret ℓ.

(** [x.op(..., inplace=True)] and [x[c] = ...]. *)
Definition inplace (f : DataFrame → Exc DataFrame) (ℓ : loc) : Script unit :=
  d ← read ℓ; d' ← lift (f d); update ℓ d'.

(** [y = op(x)]. *)
Definition derive (f : DataFrame → Exc DataFrame) (ℓ : loc) : Script loc :=
  d ← read ℓ; d' ← lift (f d); new d'.

(** The values of the widgets of one run of the script. *)
Record widgets := mkWidgets {
  sidebar : filters;
  geo_sort : string;
  geo_topn : nat;
  athlete_metric : string;
  athlete_group : string;
  scatter_color : string;
  disc_group : cell;
  disc_specific : cell
}.

Section Dashboard.
Context `{SortKind}.

Definition tab_overview (df_filtered : loc) : Script (list loc) :=
  d ← read df_filtered;
  _ ← lift (require_all d ["name"; "noc"]);
  t ← (if has_column d "year" && has_column d "gender"
       then ℓ ← derive (agg_n ["year"; "gender"] "Count" (λ g, Int (Z.of_nat (length g))))
                  df_filtered;
            mret [ℓ]
       else _ ← st (st_warning "'year' or 'gender' columns not available for the trend chart.");
            mret []);
  u ← (if has_column d "year" && has_column d "discipline"
       then ℓ ← derive (agg_n ["year"] "discipline" (λ g, Int (nunique (cells_of "discipline" g))))
                  df_filtered;
            mret [ℓ]
       else _ ← st (st_warning "'year' or 'discipline' columns not available for discipline chart.");
            mret []);
  mret (t ++ u)%list.

Definition tab_geo (w : widgets) (df_filtered df_coords : loc) : Script (list loc) :=
  _ ← inplace add_medal_present df_filtered;
  metrics_by_noc ← derive agg_by_noc df_filtered;
  _ ← inplace (astype_col "Total_Medals") metrics_by_noc;
  top ← derive (top_countries (geo_sort w) (geo_topn w)) metrics_by_noc;
  coords ← read df_coords;
  metrics ← read metrics_by_noc;
  m ← (if negb (is_empty coords) && has_column metrics "noc"
       then _ ← lift (require metrics "Total_Medals");
            positive ← new (loc_mask (λ r, gt_scalar (r !!! "Total_Medals") 0) metrics);
            df_map_data ← derive (λ l, merge_left "noc" l coords) positive;
            _ ← inplace (dropna ["latitude"; "longitude"]) df_map_data;
            d ← read df_map_data;
            _ ← (if is_empty d
                 then st (st_warning "Could not merge medal data with coordinates for the map.")
                 else mret ());
            mret [positive; df_map_data]
       else _ ← st (st_warning "Coordinate data ('noc_coordinates.csv') not loaded or 'noc' column not found for map creation.");
            mret []);
  mret (metrics_by_noc :: top :: m).

Definition available_numeric_cols (d : DataFrame) : list string :=
  filter (λ col, has_column d col && numeric_col d col) ["age"; "height_cm"; "weight_kg"].

Definition tab_athletes (w : widgets) (df_filtered : loc) : Script (list loc) :=
  d ← read df_filtered;
  if bool_decide (available_numeric_cols d = []) then
    _ ← st (st_warning "No numeric columns ('age', 'height_cm', 'weight_kg') available for athlete analysis.");
    mret []
  else
    plot_data ← derive Ok df_filtered;
    _ ← inplace (dropna (athlete_metric w ::
                         if negb (String.eqb (athlete_group w) "None")
                            && has_column d (athlete_group w)
                         then [athlete_group w] else []))
          plot_data;
    s ← (if bool_decide ("height_cm" ∈ available_numeric_cols d)
            && bool_decide ("weight_kg" ∈ available_numeric_cols d)
         then dropped ← derive (dropna ("height_cm" :: "weight_kg" ::
                                        if negb (String.eqb (scatter_color w) "None")
                                        then [scatter_color w] else []))
                          df_filtered;
              scatter_data ← derive Ok dropped;
              mret [dropped; scatter_data]
         else mret []);
    mret (plot_data :: s).

Definition tab_disciplines (w : widgets) (df_filtered : loc) : Script (list loc) :=
  d ← read df_filtered;
  if has_column d "discipline_grouped" && has_column d "discipline" then
    df_disciplines_filtered ← derive Ok df_filtered;
    df_disciplines_filtered ←
      rebind (ne_str (disc_group w) "All")
        (loc_mask (λ r, eq_scalar (r !!! "discipline_grouped") (disc_group w)))
        df_disciplines_filtered;
    df_disciplines_filtered ←
      rebind (ne_str (disc_group w) "All" && ne_str (disc_specific w) "All")
        (loc_mask (λ r, eq_scalar (r !!! "discipline") (disc_specific w)))
        df_disciplines_filtered;
    dd ← read df_disciplines_filtered;
    p ← (if negb (is_empty dd) && has_column dd "name"
         then ℓ ← derive (agg_n ["discipline_grouped"; "discipline"] "Athlete Count"
                            (λ g, Int (nunique (cells_of "name" g))))
                    df_disciplines_filtered;
              mret [ℓ]
         else _ ← st (st_warning "No data available for the Treemap with the selected filters or the 'name' column is missing.");
              mret []);
    a ← (if has_column d "age" && numeric_col d "age" && has_column d "discipline"
         then per ← derive athletes_per_discipline df_filtered;
              age ← derive (λ d, o ← age_by_discipline d; Ok (default empty_frame o))
                      df_filtered;
              mret [per; age]
         else _ ← st (st_warning "'age' or 'discipline' columns not available or not numeric for comparison across disciplines.");
              mret []);
    mret (df_disciplines_filtered :: p ++ a)%list
  else
    _ ← st (st_warning "'discipline_grouped' or 'discipline' columns not found. Discipline analysis not available.");
    mret [].

(** One run of [dashboard_olympicgames2.py] after the two loads, for the
    objects [df_olympics] and [df_coords] they returned.  The result lists
    the objects the run bound to its variables. *)
Definition dashboard (w : widgets) (df_olympics df_coords : loc) : Script (list loc) :=
  olympics ← read df_olympics;
  if is_empty olympics then
    _ ← st (st_error "Main data file ('jjoo.csv') could not be loaded. The app cannot proceed.");
    st_stop
  else
    let f := sidebar w in
    _ ← lift (require olympics "year");
    _ ← (if numeric_col olympics "year" then mret ()
         else st (st_error "The 'year' column is not numeric or was not loaded properly."));
    _ ← (if has_column olympics "type" then mret ()
         else st (st_warning "'type' column not found. Cannot filter by game type."));
    _ ← (if has_column olympics "gender" then mret ()
         else st (st_warning "'gender' column not found. Cannot filter by gender."));
    _ ← lift (require_numeric olympics "year");
    df_filtered ← new (loc_mask (year_between (selected_years f).1 (selected_years f).2) olympics);
    d ← read df_filtered;
    df_filtered ←
      rebind (ne_str (selected_type f) "All" && has_column d "type")
        (loc_mask (λ r, eq_scalar (r !!! "type") (selected_type f))) df_filtered;
    d ← read df_filtered;
    df_filtered ←
      rebind (negb (bool_decide (selected_gender f = [])) && has_column d "gender")
        (loc_mask (λ r, isin (r !!! "gender") (selected_gender f))) df_filtered;
    d ← read df_filtered;
    _ ← (if is_empty d && negb (is_empty olympics)
         then _ ← st (st_warning "No data available for the selected filters. Please adjust the filters.");
              st_stop
         else mret ());
    o ← tab_overview df_filtered;
    g ← tab_geo w df_filtered df_coords;
    a ← tab_athletes w df_filtered;
    di ← tab_disciplines w df_filtered;
    mret (df_filtered :: o ++ g ++ a ++ di)%list.

(** A session: the script runs again, on the same loaded objects, for
    every change of a widget, whatever the outcome of the run before. *)
Definition rerun_all (ws : list widgets) (df_olympics df_coords : loc) (σ : session)
  : session :=
  foldl (λ σ w, (dashboard w df_olympics df_coords σ).2) σ ws.
End Dashboard.

(** ** Vocabulary of the statements *)

(** A medal cell the tally knows how to count: nothing, the "no medal"
    placeholder, or one of the three medals. *)
Definition recognised (c : cell) : bool :=
  negb (notna c) || eq_str c "No Medal"
  || eq_str c "Gold" || eq_str c "Silver" || eq_str c "Bronze".

(** The number of records satisfying a mask. *)
Definition count_rows (p : row → bool) (l : list row) : Z :=
  Z.of_nat (length (filter (λ r, p r) l)).



(** ** Frame conditions for scripts *)

(** [agree L σ σ']: the objects at the locations [L] are the same in both
    states. *)
Definition agree (L : gset loc) (σ σ' : session) : Prop :=
  ∀ ℓ, ℓ ∈ L → heap σ' !! ℓ = heap σ !! ℓ.

(** [safe L m Φ]: run from a state in which the locations [L] are allocated,
    [m] leaves the objects at [L] as they are, whether it returns or raises,
    and what it returns satisfies [Φ]. *)
Definition safe (L : gset loc) {A} (m : Script A) (Φ : A → Prop) : Prop :=
  ∀ σ, L ⊆ dom (heap σ) →
       agree L σ (m σ).2 ∧ ∀ a, (m σ).1 = Ok a → Φ a.

Definition outside (L : gset loc) (ℓ : loc) : Prop := ℓ ∉ L.
Definition anything {A} (a : A) : Prop := True.

(** ** Sample data *)

Definition athlete (y : Z) (noc medal name gender : cell) : row :=
  {[ "year" := Int y; "noc" := noc; "medal" := medal; "name" := name; "gender" := gender ]}.

(** Three participations: two for the USA in 2000, one for France in 2004. *)
Definition scenario : DataFrame :=
  mkFrame ["year"; "noc"; "medal"; "name"; "gender"]
    [athlete 2000 (Str "USA") (Str "Gold") (Str "A") (Str "Male");
     athlete 2000 (Str "USA") NaN (Str "B") (Str "Female");
     athlete 2004 (Str "FRA") (Str "Silver") (Str "C") (Str "Male")].

Definition tally_row (noc : string) (athletes medals gold silver bronze : Z) : row :=
  {[ "noc" := Str noc; "Total_Athletes" := Int athletes; "Total_Medals" := Int medals;
     "Gold" := Int gold; "Silver" := Int silver; "Bronze" := Int bronze ]}.

(** A medal column written in lower case. *)
Definition lower_case_medal : DataFrame :=
  mkFrame ["year"; "noc"; "medal"; "name"; "gender"]
    [athlete 2000 (Str "NOR") (Str "gold") (Str "D") (Str "Female")].

(** Two countries with two medals each, in the order of the tally. *)
Definition tied_countries : DataFrame :=
  mkFrame metrics_cols [tally_row "FRA" 3 2 1 1 0; tally_row "USA" 4 2 2 0 0].

(** A coordinate table with one country. *)
Definition sample_coords : DataFrame :=
  mkFrame coord_cols
    [ {[ "noc" := Str "USA"; "country" := Str "United States";
         "latitude" := Float (38 # 1); "longitude" := Float (-97 # 1) ]} ].

(** A main table with every essential column. *)
Definition participation (y : Z) (ty noc medal : cell) (age : cell) (gender dg name d : cell)
  : row :=
  {[ "year" := Int y; "type" := ty; "noc" := noc; "medal" := medal; "age" := age;
     "gender" := gender; "discipline_grouped" := dg; "name" := name; "discipline" := d ]}.

Definition main_table : DataFrame :=
  mkFrame essential_cols
    [participation 2000 (Str "Summer") (Str "USA") (Str "Gold") (Float (20 # 1))
       (Str "Male") (Str "Aquatics") (Str "A") (Str "Swimming");
     participation 2000 (Str "Summer") (Str "USA") NaN NaN
       (Str "Female") (Str "Aquatics") (Str "B") (Str "Swimming");
     participation 2004 (Str "Summer") (Str "FRA") (Str "Silver") (Float (30 # 1))
       (Str "Male") (Str "Aquatics") (Str "C") (Str "Swimming")].

(** The state after the two loads, and the widgets as they are at first. *)
Definition loaded : session :=
  mkSession {[ 0%nat := main_table; 1%nat := sample_coords ]} [].

Definition first_run : widgets :=
  mkWidgets (mkFilters (2000, 2004) (Str "All") [Str "Male"; Str "Female"])
    "Total_Medals" 15 "age" "gender" "gender" (Str "All") (Str "All").

(** Three participations with two genders. *)
Definition two_genders : DataFrame :=
  mkFrame ["year"; "gender"]
    [ {[ "year" := Int 2000; "gender" := Str "Male" ]};
      {[ "year" := Int 2004; "gender" := Str "Female" ]};
      {[ "year" := Int 2004; "gender" := Str "Male" ]} ].

(** A gender column with a missing value, and one with nothing else. *)
Definition some_null_gender : DataFrame :=
  mkFrame ["year"; "gender"]
    [ {[ "year" := Int 2000; "gender" := Str "Male" ]};
      {[ "year" := Int 2000; "gender" := NaN ]} ].

Definition only_null_gender : DataFrame :=
  mkFrame ["year"; "gender"] [ {[ "year" := Int 2000; "gender" := NaN ]} ].

(** ** The widgets at their defaults *)

(** [Series.min()] and [Series.max()]: over the values that are present;
    nothing when there is none. *)
Definition series_min (l : list cell) : option Q :=
  match omap to_Q l with
  | [] => None
  | x :: xs => Some (foldl Qmin x xs)
  end.
Definition series_max (l : list cell) : option Q :=
  match omap to_Q l with
  | [] => None
  | x :: xs => Some (foldl Qmax x xs)
  end.

(** [int(x)] of a float: towards zero. *)
Definition int_of_float (q : Q) : Z := Z.quot (Qnum q) (Z.pos (Qden q)).

(** The default of the year slider: the whole range of the data when the
    column is numeric (and [int(nan)] raises when it holds no value), the
    placeholder [(0, 0)] otherwise. *)
Definition default_years (df_olympics : DataFrame) : Exc (Z * Z) :=
  _ ← require df_olympics "year";
  if numeric_col df_olympics "year" then
    match series_min (cells_of "year" (records df_olympics)),
          series_max (cells_of "year" (records df_olympics)) with
    | Some lo, Some hi => Ok (int_of_float lo, int_of_float hi)
    | _, _ => Raise (OtherError "cannot convert float NaN to integer")
    end
  else Ok (0, 0).

(** The sidebar before the user touches it: the whole year range, the
    first radio option and every gender option. *)
Definition default_filters (all_label : string) (df_olympics : DataFrame) : Exc filters :=
  years ← default_years df_olympics;
  Ok (mkFilters years (Str all_label) (gender_options df_olympics)).

(** ** The tabs of a run *)


(** The warnings of the sidebar about columns it cannot filter on. *)
Definition sidebar_warnings (df_olympics : DataFrame) : list st_call :=
  ((if has_column df_olympics "type" then []
    else [st_warning "'type' column not found. Cannot filter by game type."])
   ++ (if has_column df_olympics "gender" then []
       else [st_warning "'gender' column not found. Cannot filter by gender."]))%list.

(** ** The country options and the medal chart of [app.py] and [app_corregido.py] *)

(** [array.sort()] on the values of a column: numbers sort by value with
    missing values last, strings by code point; comparing a string with a
    number or with a missing value raises [TypeError]. *)
Definition np_sort (l : list cell) : Exc (list cell) :=
  if forallb is_str l || forallb (λ c, negb (is_str c)) l
  then Ok (stable_sort key_leb l)
  else Raise (TypeError "'<' not supported between instances of 'float' and 'str'").

(** The options of the country selectbox, after ['Todos']:
    [df_tipo['noc'].unique()] in [app.py] and
    [df_tipo['noc'].dropna().unique()] in [app_corregido.py], sorted. *)
Definition paises (corrected : bool) (df_tipo : DataFrame) : Exc (list cell) :=
  _ ← require df_tipo "noc";
  let nocs := cells_of "noc" (records df_tipo) in
  np_sort (unique (if corrected then dropna_cells nocs else nocs)).

(** [df.groupby(by)[col].count()]: for each group the number of values of
    [col] that are present; the series, with its index, as a frame of two
    columns. *)
Definition count_by (by_ col : string) (df : DataFrame) : Exc DataFrame :=
  _ ← require df by_;
  _ ← require df col;
  Ok (mkFrame [by_; col]
        ((λ k, {[ by_ := k;
                  col := Int (Z.of_nat (length (dropna_cells (cells_of col (group by_ k df))))) ]})
           <$> group_keys by_ df)).

Definition medals : list cell := [Str "Gold"; Str "Silver"; Str "Bronze"].

(** [df_tipo[df_tipo['medal'].isin([...])].groupby('noc')['medal'].count()
       .sort_values(ascending=False).head(15)]. *)
Definition medallas_pais `{SortKind} (df_tipo : DataFrame) : Exc DataFrame :=
  _ ← require df_tipo "medal";
  c ← count_by "noc" "medal" (loc_mask (λ r, isin (r !!! "medal") medals) df_tipo);
  s ← sort_values "medal" false c;
  Ok (head 15 s).

(** ** Further vocabulary *)

(** [narrower f' f]: the settings [f'] ask for no more than the settings
    [f] let through. *)
Definition narrower (all_label : string) (f' f : filters) : Prop :=
  (selected_years f).1 ≤ (selected_years f').1
  ∧ (selected_years f').2 ≤ (selected_years f).2
  ∧ (ne_str (selected_type f) all_label = false ∨ selected_type f = selected_type f')
  ∧ (selected_gender f = []
     ∨ (selected_gender f' ≠ [] ∧ selected_gender f' ⊆ selected_gender f)).

(** A cell that holds a whole number, or nothing. *)
Definition whole_or_missing (c : cell) : Prop :=
  match to_Q c with
  | Some q => ∃ z : Z, (q == inject_Z z)%Q
  | None => c = NaN
  end.

(** [extends σ σ']: every object of [σ] is still there, unchanged. *)
Definition extends (σ σ' : session) : Prop :=
  ∀ ℓ, ℓ ∈ dom (heap σ) → heap σ' !! ℓ = heap σ !! ℓ.

(** A string with its commas taken out. *)
Definition without_commas (s : string) : string :=
  string_of_list_ascii (filter (λ c, c ≠ ","%char) (list_ascii_of_string s)).


(** ** Further sample data *)

(** Three participations, one without a gender and one without a year. *)
Definition some_missing : DataFrame :=
  mkFrame ["year"; "gender"]
    [ {[ "year" := Int 2000; "gender" := Str "Male" ]};
      {[ "year" := Int 2004; "gender" := NaN ]};
      {[ "year" := NaN; "gender" := Str "Female" ]} ].


(** A table whose years were read as text, loaded. *)
Definition text_year : DataFrame :=
  mkFrame ["year"; "gender"] [ {[ "year" := Str "MM"; "gender" := Str "Male" ]} ].
Definition loaded_text_year : session := mkSession {[ 0%nat := text_year ]} [].

(** The tally of [main_table] and of [scenario]. *)
Definition main_tally : DataFrame :=
  mkFrame metrics_cols [tally_row "FRA" 1 1 0 1 0; tally_row "USA" 2 1 1 0 0].

(** Participations of which one names no country. *)
Definition some_null_noc : DataFrame :=
  mkFrame ["noc"; "medal"]
    [ {[ "noc" := Str "USA"; "medal" := Str "Gold" ]};
      {[ "noc" := NaN; "medal" := Str "Silver" ]};
      {[ "noc" := Str "FRA"; "medal" := NaN ]} ].

(** * Properties *)

(** ** Sorting *)

Section Insertion_sort.
Context {A : Type} (leb : A → A → bool).

Lemma insert_sorted_perm x l : insert_sorted leb x l ≡ₚ x :: l.
Proof.
  induction l as [|y l IH]; simpl; [done|].
  destruct (leb x y); [done|].
  rewrite IH. apply Permutation_swap.
Qed.

Lemma stable_sort_perm l : stable_sort leb l ≡ₚ l.
Proof.
  induction l as [|x l IH]; simpl; [done|].
  unfold stable_sort in *. simpl. by rewrite insert_sorted_perm, IH.
Qed.

Hypothesis leb_total : ∀ a b, leb a b = true ∨ leb b a = true.
Hypothesis leb_trans : ∀ a b c, leb a b = true → leb b c = true → leb a c = true.

Lemma insert_sorted_sorted x l :
  StronglySorted (λ a b, leb a b = true) l →
  StronglySorted (λ a b, leb a b = true) (insert_sorted leb x l).
Proof.
  induction 1 as [|y l Hs IH Hy]; simpl; [by repeat constructor|].
  destruct (leb x y) eqn:Hxy.
  - constructor; [by constructor|].
    constructor; [done|].
    eapply Forall_impl; [exact Hy|]. intros z Hz. by eapply leb_trans.
  - constructor; [done|].
    rewrite insert_sorted_perm. constructor; [|done].
    destruct (leb_total x y); congruence.
Qed.

Lemma stable_sort_sorted l :
  StronglySorted (λ a b, leb a b = true) (stable_sort leb l).
Proof.
  induction l as [|x l IH]; [constructor|].
  by apply insert_sorted_sorted.
Qed.
End Insertion_sort.

(** Stability: elements that the order ties pairwise come out in the order
    they went in. *)
Section Stability.
Context {A : Type} (leb : A → A → bool) (tied : A → bool).
Hypothesis tied_leb : ∀ a b, tied a = true → tied b = true → leb a b = true.


End Stability.

Lemma Qle_bool_total x y : Qle_bool x y = true ∨ Qle_bool y x = true.
Proof.
  destruct (Qlt_le_dec x y) as [Hlt|Hle].
  - left. apply Qle_bool_iff. by apply Qlt_le_weak.
  - right. by apply Qle_bool_iff.
Qed.

Lemma Qle_bool_trans x y z :
  Qle_bool x y = true → Qle_bool y z = true → Qle_bool x z = true.
Proof. rewrite !Qle_bool_iff. apply Qle_trans. Qed.

Lemma precedes_b_total key asc a b :
  precedes_b key asc a b = true ∨ precedes_b key asc b a = true.
Proof.
  unfold precedes_b. destruct (key a), (key b), asc; auto using Qle_bool_total.
Qed.

Lemma precedes_b_trans key asc a b c :
  precedes_b key asc a b = true → precedes_b key asc b c = true →
  precedes_b key asc a c = true.
Proof.
  unfold precedes_b. destruct (key a), (key b), (key c), asc; try done;
    eauto using Qle_bool_trans.
Qed.


Lemma kind_stable_sorts : sorts kind_stable.
Proof.
  split; intros key asc l; unfold sort_rows, kind_stable.
  - apply stable_sort_perm.
  - apply stable_sort_sorted; [apply precedes_b_total | apply precedes_b_trans].
Qed.


(** ** Masks *)

Lemma has_column_loc_mask mask df c :
  has_column (loc_mask mask df) c = has_column df c.
Proof. reflexivity. Qed.

Lemma loc_mask_loc_mask p q df :
  loc_mask p (loc_mask q df) = loc_mask (λ r, q r && p r) df.
Proof.
  unfold loc_mask; simpl. f_equal.
  rewrite list_filter_filter. apply list_filter_iff.
  intros r. destruct (q r), (p r); simpl; tauto.
Qed.

Lemma loc_mask_ext p q df :
  (∀ r, r ∈ records df → p r = q r) → loc_mask p df = loc_mask q df.
Proof.
  intros Hpq. unfold loc_mask. f_equal.
  induction (records df) as [|r l IH]; [done|].
  rewrite !filter_cons. rewrite (Hpq r) by left.
  rewrite IH; [done|]. intros r' Hr'. apply Hpq. by right.
Qed.

Lemma loc_mask_all p df :
  (∀ r, r ∈ records df → p r = true) → loc_mask p df = df.
Proof.
  intros Hp. destruct df as [cols recs]. unfold loc_mask; simpl in *. f_equal.
  induction recs as [|r l IH]; [done|].
  rewrite filter_cons_True by (rewrite Hp; [done|left]).
  f_equal. apply IH. intros r' Hr'. apply Hp. by right.
Qed.

Lemma loc_mask_idem p df : loc_mask p (loc_mask p df) = loc_mask p df.
Proof.
  rewrite loc_mask_loc_mask. apply loc_mask_ext.
  intros r _. by destruct (p r).
Qed.

Lemma elem_of_loc_mask p df r :
  r ∈ records (loc_mask p df) ↔ p r = true ∧ r ∈ records df.
Proof.
  unfold loc_mask; simpl. rewrite list_elem_of_filter.
  by rewrite Is_true_true.
Qed.

Lemma numeric_col_loc_mask p df c :
  numeric_col df c = true → numeric_col (loc_mask p df) c = true.
Proof.
  unfold numeric_col. rewrite !forallb_forall.
  intros H r Hr. apply H.
  apply list_elem_of_In in Hr. apply elem_of_loc_mask in Hr as [_ Hr].
  by apply list_elem_of_In.
Qed.

(** ** Filter Engine: one mask *)

Section Dashboard_filter_facts.
Variable all_label : string.

Lemma filter_type_mask sel df :
  filter_type all_label sel df
  = loc_mask (λ r, if ne_str sel all_label && has_column df "type"
                   then eq_scalar (r !!! "type") sel else true) df.
Proof.
  unfold filter_type. destruct (ne_str _ _ && _); [done|].
  by rewrite loc_mask_all.
Qed.

Lemma filter_gender_mask sel df :
  filter_gender sel df
  = loc_mask (λ r, if negb (bool_decide (sel = [])) && has_column df "gender"
                   then isin (r !!! "gender") sel else true) df.
Proof.
  unfold filter_gender. destruct (negb _ && _); [done|].
  by rewrite loc_mask_all.
Qed.

Lemma df_filtered_mask f df :
  df_filtered all_label f df
  = (_ ← require df "year"; _ ← require_numeric df "year";
     Ok (loc_mask (keeps all_label f (columns df)) df)).
Proof.
  unfold df_filtered.
  destruct (require df "year"); [|done]. simpl.
  destruct (require_numeric df "year"); [|done]. simpl. f_equal.
  rewrite filter_gender_mask, filter_type_mask, !loc_mask_loc_mask.
  apply loc_mask_ext. intros r _. unfold keeps.
  unfold has_column; simpl. by rewrite andb_assoc.
Qed.

End Dashboard_filter_facts.

Ltac split_guard :=
  match goal with
  | |- context [bool_decide (?c ∈ columns ?df)] =>
      destruct (bool_decide (c ∈ columns df)) eqn:?; simpl; try done
  | |- context [negb (String.eqb ?a ?b)] =>
      destruct (negb (String.eqb a b)) eqn:?; simpl; try done
  end.

Ltac same_mask :=
  f_equal; rewrite ?loc_mask_loc_mask; apply loc_mask_ext; intros ? _;
  repeat match goal with
    | |- context [eq_str ?c ?s] => destruct (eq_str c s); simpl; try done
    end.

(** C5. The Filter Engine is idempotent: filtering a filtered view again
    with the same predicates gives the same view, and raises the same
    exception when the first pass raised.  This holds for the sidebar
    filter of both dashboards (whatever the label of the "all" option) and
    for the filter block of [app.py] / [app_corregido.py]. *)
Theorem apply_idempotent :
  (∀ all_label f df,
     df_filtered all_label f df ≫= df_filtered all_label f = df_filtered all_label f df)
  ∧ (∀ f df, df_tipo f df ≫= df_tipo f = df_tipo f df).
Proof.
  split.
  - intros all_label f df. rewrite (df_filtered_mask all_label f df).
    unfold require, require_numeric.
    destruct (has_column df "year") eqn:Hy; [|done]. simpl.
    destruct (numeric_col df "year") eqn:Hn; [|done]. simpl.
    rewrite df_filtered_mask. unfold require, require_numeric.
    rewrite has_column_loc_mask, Hy. simpl.
    rewrite numeric_col_loc_mask by done. simpl.
    by rewrite loc_mask_idem.
  - intros f df. unfold df_tipo, col_eq, require, has_column; simpl.
    repeat split_guard; unfold has_column; simpl;
      repeat match goal with H : _ = _ |- _ => rewrite H; simpl end;
      same_mask.
Qed.

(** ** Filter Engine: complementary selections *)

Lemma loc_mask_fixed p df r :
  loc_mask p df = df → r ∈ records df → p r = true.
Proof.
  intros Heq Hr. rewrite <- Heq in Hr. by apply elem_of_loc_mask in Hr as [? _].
Qed.

Lemma loc_mask_complement p df :
  records (loc_mask p df) ++ records (loc_mask (λ r, negb (p r)) df) ≡ₚ records df.
Proof.
  unfold loc_mask; simpl.
  etrans; [|apply (filter_app_complement (λ r, Is_true (p r)))].
  apply Permutation_app_head.
  induction (records df) as [|r l IH]; [done|].
  rewrite !filter_cons.
  destruct (p r); simpl; repeat case_decide; simpl in *; try tauto; by f_equiv.
Qed.

Lemma String_eqb_neq (s t : string) : s ≠ t → String.eqb s t = false.
Proof. intros. by apply String.eqb_neq. Qed.

Lemma isin_one (c : cell) (s : string) : isin c [Str s] = eq_str c s.
Proof. destruct c; simpl; try done; by rewrite orb_false_r. Qed.

Lemma eq_str_Str (s t : string) : eq_str (Str s) t = String.eqb s t.
Proof. done. Qed.

(** On a frame whose rows all carry one of two values in column [c], the
    mask of one value is the complement of the mask of the other. *)
Lemma two_values_complement c a b df :
  a ≠ b →
  (∀ r, r ∈ records df → r !!! c = Str a ∨ r !!! c = Str b) →
  loc_mask (λ r, eq_str (r !!! c) b) df = loc_mask (λ r, negb (eq_str (r !!! c) a)) df.
Proof.
  intros Hab Hc. apply loc_mask_ext. intros r Hr.
  destruct (Hc r Hr) as [-> | ->]; rewrite !eq_str_Str.
  - rewrite String.eqb_refl. simpl. by apply String_eqb_neq.
  - rewrite String.eqb_refl. simpl. symmetry. apply negb_true_iff. by apply String_eqb_neq.
Qed.

Lemma two_values_disjoint c a b df r :
  a ≠ b →
  r ∈ records (loc_mask (λ r, eq_str (r !!! c) a) df) →
  r ∉ records (loc_mask (λ r, eq_str (r !!! c) b) df).
Proof.
  intros Hab [Ha _]%elem_of_loc_mask [Hb _]%elem_of_loc_mask.
  destruct (r !!! c); try done. rewrite eq_str_Str in Ha, Hb.
  apply String.eqb_eq in Ha, Hb. congruence.
Qed.

Lemma two_values_partition c a b df :
  a ≠ b →
  (∀ r, r ∈ records df → r !!! c = Str a ∨ r !!! c = Str b) →
  records (loc_mask (λ r, eq_str (r !!! c) a) df)
    ++ records (loc_mask (λ r, eq_str (r !!! c) b) df) ≡ₚ records df.
Proof.
  intros Hab Hc. rewrite (two_values_complement c a b) by done.
  apply loc_mask_complement.
Qed.

(** With one selected gender and no other constraint, the sidebar filter
    is the equality mask on the gender column. *)
Lemma df_filtered_one_gender all_label lo hi g df :
  has_column df "gender" = true →
  df_filtered all_label (mkFilters (lo, hi) (Str all_label) []) df = Ok df →
  df_filtered all_label (mkFilters (lo, hi) (Str all_label) [Str g]) df
  = Ok (loc_mask (λ r, eq_str (r !!! "gender") g) df).
Proof.
  intros Hg. rewrite !df_filtered_mask. unfold require, require_numeric.
  destruct (has_column df "year"); [|done]. simpl.
  destruct (numeric_col df "year"); [|done]. simpl.
  intros [= Hall]. f_equal. apply loc_mask_ext. intros r Hr.
  pose proof (loc_mask_fixed _ _ r Hall Hr) as Hk.
  unfold keeps in *. simpl in *.
  unfold has_column in Hg. rewrite Hg. simpl.
  rewrite andb_true_r in Hk. rewrite Hk. simpl.
  apply isin_one.
Qed.

(** C6. On a record set in which every row carries one of two gender
    values, selecting the one value and selecting the other, with no other
    constraint (the year range and the games type keep the whole set), gives
    two views that share no row and that together hold exactly the rows of
    the set.  The same holds for the gender step of [app_corregido.py]. *)
Theorem gender_partition all_label lo hi (male female : string) (df : DataFrame) :
  male ≠ female →
  has_column df "gender" = true →
  (∀ r, r ∈ records df → r !!! "gender" = Str male ∨ r !!! "gender" = Str female) →
  df_filtered all_label (mkFilters (lo, hi) (Str all_label) []) df = Ok df →
  (∃ m f,
     df_filtered all_label (mkFilters (lo, hi) (Str all_label) [Str male]) df = Ok m
     ∧ df_filtered all_label (mkFilters (lo, hi) (Str all_label) [Str female]) df = Ok f
     ∧ columns m = columns df ∧ columns f = columns df
     ∧ records m ++ records f ≡ₚ records df
     ∧ ∀ r, r ∈ records m → r ∉ records f)
  ∧ (∃ m f,
       col_eq "gender" male df = Ok m
       ∧ col_eq "gender" female df = Ok f
       ∧ columns m = columns df ∧ columns f = columns df
       ∧ records m ++ records f ≡ₚ records df
       ∧ ∀ r, r ∈ records m → r ∉ records f).
Proof.
  intros Hne Hg Htwo Hall. split.
  - eexists _, _.
    rewrite !(df_filtered_one_gender all_label lo hi _ df Hg Hall).
    repeat split.
    + by apply two_values_partition.
    + intros r. by apply two_values_disjoint.
  - unfold col_eq, require. rewrite Hg. simpl. eexists _, _.
    repeat split.
    + by apply two_values_partition.
    + intros r. by apply two_values_disjoint.
Qed.

Lemma gender_partition_witness :
  records (loc_mask (λ r, eq_str (r !!! "gender") "Male") two_genders)
    ++ records (loc_mask (λ r, eq_str (r !!! "gender") "Female") two_genders)
  ≡ₚ records two_genders.
Proof.
  destruct (gender_partition "All" 1896 2024 "Male" "Female" two_genders) as [_ H].
  - done.
  - reflexivity.
  - intros r Hr. unfold two_genders in Hr; simpl in Hr.
    repeat (apply elem_of_cons in Hr as [-> | Hr]); [by left | by right | by left |].
    by apply elem_of_nil in Hr.
  - vm_compute. reflexivity.
  - destruct H as (m & f & Hm & Hf & _ & _ & Hp & _).
    unfold col_eq, require in Hm, Hf. simpl in Hm, Hf.
    injection Hm as <-. injection Hf as <-. exact Hp.
Defined.

(** ** Filter Engine: missing genders *)

Lemma gender_options_present df g : g ∈ gender_options df → notna g = true.
Proof.
  unfold gender_options. destruct (has_column df "gender").
  - intros [Hg _]%list_elem_of_filter. by apply Is_true_true.
  - by intros ?%elem_of_nil.
Qed.

Lemma gender_options_column df :
  gender_options df ≠ [] → has_column df "gender" = true.
Proof. unfold gender_options. by destruct (has_column df "gender"). Qed.

Lemma isin_NaN values :
  isin NaN values = true → ∃ v, v ∈ values ∧ notna v = false.
Proof.
  simpl. intros (v & Hv & Hna)%existsb_exists.
  exists v. split; [by apply list_elem_of_In|]. by apply negb_true_iff.
Qed.

(** C9, as amended.  When the gender column holds at least one value, the
    multiselect offers the values that are present, and selecting all of
    them is a non-empty selection: the membership mask is applied and drops
    every row whose gender is missing. *)
Theorem all_genders_selected_drops_nulls all_label (f : filters) (df d : DataFrame) :
  gender_options df ≠ [] →
  selected_gender f = gender_options df →
  df_filtered all_label f df = Ok d →
  (∀ r, r ∈ records d → notna (r !!! "gender") = true)
  ∧ (∀ r, r ∈ records df → r !!! "gender" = NaN → r ∉ records d).
Proof.
  intros Hne Hsel. rewrite df_filtered_mask. unfold require, require_numeric.
  destruct (has_column df "year"); [|done]. simpl.
  destruct (numeric_col df "year"); [|done]. simpl.
  intros [= <-].
  assert (Hkeep : ∀ r, r ∈ records (loc_mask (keeps all_label f (columns df)) df) →
                       notna (r !!! "gender") = true).
  { intros r [Hk _]%elem_of_loc_mask. unfold keeps in Hk.
    apply andb_true_iff in Hk as [_ Hk].
    pose proof (gender_options_column df Hne) as Hcol. unfold has_column in Hcol.
    rewrite Hcol, Hsel in Hk. rewrite bool_decide_eq_false_2 in Hk by done.
    simpl in Hk. destruct (r !!! "gender") eqn:Hg; try done.
    apply isin_NaN in Hk as (v & Hv & Hna).
    apply gender_options_present in Hv. congruence. }
  split; [done|].
  intros r _ Hnull Hr. apply Hkeep in Hr. by rewrite Hnull in Hr.
Qed.

Lemma all_genders_selected_witness :
  ({[ "year" := Int 2000; "gender" := NaN ]} : row)
  ∉ [ ({[ "year" := Int 2000; "gender" := Str "Male" ]} : row) ].
Proof.
  refine (proj2 (all_genders_selected_drops_nulls "All"
            (mkFilters (2000, 2000) (Str "All") [Str "Male"])
            some_null_gender
            (mkFrame ["year"; "gender"] [ {[ "year" := Int 2000; "gender" := Str "Male" ]} ])
            _ _ _) _ _ _).
  - vm_compute. discriminate.
  - vm_compute. reflexivity.
  - vm_compute. reflexivity.
  - right. left.
  - reflexivity.
Defined.

(** C9, as stated, fails on a record set whose gender column holds no value
    at all: the multiselect then has no option, the complete selection is
    the empty one, the guard skips the membership mask and the rows with a
    missing gender stay. *)
Lemma all_null_genders_are_kept :
  ¬ (∀ (f : filters) (df d : DataFrame),
       selected_gender f = gender_options df →
       df_filtered "All" f df = Ok d →
       ∀ r, r ∈ records df → r !!! "gender" = NaN → r ∉ records d).
Proof.
  intros Hclaim.
  apply (Hclaim (mkFilters (2000, 2000) (Str "All") []) only_null_gender only_null_gender
           eq_refl eq_refl
           {[ "year" := Int 2000; "gender" := NaN ]}).
  - left.
  - reflexivity.
  - left.
Qed.

(** ** Aggregator: the medal tally *)

Lemma sum_int_Bool {A} (p : A → bool) (l : list A) :
  sum_int ((λ x, Bool (p x)) <$> l) = Z.of_nat (length (filter (λ x, p x) l)).
Proof.
  induction l as [|x l IH]; [done|].
  rewrite fmap_cons. simpl. rewrite IH.
  destruct (p x) eqn:Hp; simpl.
  - rewrite filter_cons_True by (by apply Is_true_true). simpl length. lia.
  - rewrite filter_cons_False by (by apply Is_true_false). done.
Qed.

Lemma count_eq_cells s c (l : list row) :
  count_eq s (cells_of c l) = count_rows (λ r, eq_str (r !!! c) s) l.
Proof.
  unfold count_eq, cells_of, count_rows. rewrite <- list_fmap_compose.
  apply (sum_int_Bool (λ r, eq_str (r !!! c) s)).
Qed.

Lemma count_rows_cons p r l :
  count_rows p (r :: l) = Z.b2z (p r) + count_rows p l.
Proof.
  unfold count_rows.
  destruct (p r) eqn:Hp; simpl.
  - rewrite filter_cons_True by (by apply Is_true_true). simpl length. lia.
  - rewrite filter_cons_False by (by apply Is_true_false). done.
Qed.

Lemma count_rows_nonneg p l : 0 ≤ count_rows p l.
Proof. unfold count_rows. lia. Qed.

(** One medal cell counts for at most one of the three medals, and then it
    counts as a medal; it counts as a medal without being one of the three
    exactly when it is not recognised. *)
Lemma medal_cell_tally (c : cell) :
  Z.b2z (eq_str c "Gold") + Z.b2z (eq_str c "Silver") + Z.b2z (eq_str c "Bronze")
  + Z.b2z (negb (recognised c))
  = Z.b2z (notna c && ne_str c "No Medal").
Proof.
  unfold recognised, ne_str.
  destruct c as [|s|z|q|b]; try done.
  rewrite !eq_str_Str. simpl.
  destruct (String.eqb_spec s "Gold") as [->|]; [done|].
  destruct (String.eqb_spec s "Silver") as [->|]; [done|].
  destruct (String.eqb_spec s "Bronze") as [->|]; [done|].
  by destruct (String.eqb_spec s "No Medal").
Qed.

Lemma group_tally (l : list row) :
  count_rows (λ r, eq_str (r !!! "medal") "Gold") l
  + count_rows (λ r, eq_str (r !!! "medal") "Silver") l
  + count_rows (λ r, eq_str (r !!! "medal") "Bronze") l
  + count_rows (λ r, negb (recognised (r !!! "medal"))) l
  = count_rows medal_present l.
Proof.
  induction l as [|r l IH]; [done|].
  rewrite !count_rows_cons. unfold medal_present at 1.
  rewrite <- (medal_cell_tally (r !!! "medal")). lia.
Qed.

Lemma count_rows_zero p l :
  count_rows p l = 0 ↔ ∀ r, r ∈ l → p r = false.
Proof.
  induction l as [|r l IH].
  - split; [|done]. by intros _ r ?%elem_of_nil.
  - rewrite count_rows_cons. pose proof (count_rows_nonneg p l).
    split.
    + intros Hz r' Hr'. apply elem_of_cons in Hr' as [Heq|Hr'].
      * subst r'. destruct (p r); [simpl in Hz; lia|done].
      * apply IH; [|done]. destruct (p r); simpl in Hz; lia.
    + intros Hall. rewrite (Hall r) by left. simpl.
      apply IH. intros r' Hr'. apply Hall. by right.
Qed.

(** The groups of the view with the helper column are the groups of the
    view itself, each record carrying its helper cell. *)
Lemma group_setitem by_ c value k df :
  c ≠ by_ →
  group by_ k (setitem c value df) = (λ r, <[c := value r]> r) <$> group by_ k df.
Proof.
  intros Hc. unfold group, setitem; simpl.
  induction (records df) as [|r l IH]; [done|].
  rewrite fmap_cons, !filter_cons.
  rewrite lookup_total_insert_ne by done.
  case_decide; [rewrite fmap_cons|]; by rewrite IH.
Qed.

Lemma cells_of_setitem_same c value (l : list row) :
  cells_of c ((λ r, <[c := value r]> r) <$> l) = value <$> l.
Proof.
  unfold cells_of. rewrite <- list_fmap_compose. apply list_fmap_ext.
  intros i r _. simpl. by rewrite lookup_total_insert_eq.
Qed.

Lemma cells_of_setitem_other c c' value (l : list row) :
  c ≠ c' →
  cells_of c' ((λ r, <[c := value r]> r) <$> l) = cells_of c' l.
Proof.
  intros Hc. unfold cells_of. rewrite <- list_fmap_compose. apply list_fmap_ext.
  intros i r _. simpl. by rewrite lookup_total_insert_ne.
Qed.

Lemma group_keys_setitem by_ c value df :
  c ≠ by_ → group_keys by_ (setitem c value df) = group_keys by_ df.
Proof.
  intros Hc. unfold group_keys, setitem; simpl.
  by rewrite cells_of_setitem_other.
Qed.

Lemma has_column_setitem c value df c' :
  c ≠ c' → has_column (setitem c value df) c' = has_column df c'.
Proof.
  intros Hc. unfold has_column at 1. unfold setitem; simpl.
  destruct (has_column df c); [done|].
  unfold has_column. apply bool_decide_ext.
  rewrite elem_of_app, list_elem_of_singleton. intuition congruence.
Qed.

Lemma has_column_setitem_same c value df : has_column (setitem c value df) c = true.
Proof.
  unfold has_column at 1. unfold setitem; simpl. apply bool_decide_eq_true.
  destruct (has_column df c) eqn:Hc; [by apply bool_decide_eq_true in Hc|].
  apply elem_of_app. right. by left.
Qed.

(** The tally of one NOC, in terms of the records of the view. *)
Lemma noc_metrics_setitem df k :
  noc_metrics (setitem "medal_present" (λ r, Bool (medal_present r)) df) k
  = {[ "noc" := k;
       "Total_Athletes" := Int (nunique (cells_of "name" (group "noc" k df)));
       "Total_Medals" := Int (count_rows medal_present (group "noc" k df));
       "Gold" := Int (count_rows (λ r, eq_str (r !!! "medal") "Gold") (group "noc" k df));
       "Silver" := Int (count_rows (λ r, eq_str (r !!! "medal") "Silver") (group "noc" k df));
       "Bronze" := Int (count_rows (λ r, eq_str (r !!! "medal") "Bronze") (group "noc" k df)) ]}.
Proof.
  unfold noc_metrics. cbv zeta.
  rewrite group_setitem by done.
  rewrite cells_of_setitem_same, !cells_of_setitem_other by done.
  rewrite !count_eq_cells.
  by rewrite (sum_int_Bool medal_present).
Qed.

(** Converting a column of integers changes nothing. *)
Lemma astype_rows_Int c (rs : list row) :
  (∀ r, r ∈ rs → ∃ z, r !! c = Some (Int z)) → astype_rows c rs = Ok rs.
Proof.
  induction rs as [|r rs IH]; [done|]. intros Hint. simpl.
  destruct (Hint r) as [z Hz]; [left|].
  rewrite (lookup_total_correct _ _ _ Hz). simpl.
  rewrite IH by (intros r' Hr'; apply Hint; by right). simpl.
  by rewrite insert_id.
Qed.

Lemma metrics_by_noc_eq df :
  metrics_by_noc df
  = (_ ← require_all df ["medal"; "noc"; "name"];
     Ok (mkFrame metrics_cols
           (noc_metrics (setitem "medal_present" (λ r, Bool (medal_present r)) df)
              <$> group_keys "noc" df))).
Proof.
  unfold metrics_by_noc, add_medal_present, agg_by_noc. simpl. unfold require.
  destruct (has_column df "medal") eqn:Hm; [|done]. simpl.
  rewrite !has_column_setitem by done. rewrite has_column_setitem_same, Hm.
  simpl. rewrite !has_column_setitem by done.
  destruct (has_column df "noc") eqn:Hn; [|done]. simpl.
  destruct (has_column df "name") eqn:Ha; [|done]. simpl.
  unfold astype_col, require. simpl.
  rewrite group_keys_setitem by done.
  rewrite astype_rows_Int; [done|].
  intros r (k & -> & _)%list_elem_of_fmap. by eexists.
Qed.

(** C1, as amended.  For every group of the per-NOC tally, the three medal
    counts and the total are the numbers of rows of the NOC with the
    respective medal and with a medal that is present and not the
    placeholder; the three counts add up to at most the total, and to
    exactly the total when every medal cell of the NOC is recognised. *)
Theorem medal_tally (df m : DataFrame) (g : row) :
  metrics_by_noc df = Ok m →
  g ∈ records m →
  let rows := group "noc" (g !!! "noc") df in
  let gold := count_rows (λ r, eq_str (r !!! "medal") "Gold") rows in
  let silver := count_rows (λ r, eq_str (r !!! "medal") "Silver") rows in
  let bronze := count_rows (λ r, eq_str (r !!! "medal") "Bronze") rows in
  let total := count_rows medal_present rows in
  g !! "Gold" = Some (Int gold) ∧ g !! "Silver" = Some (Int silver)
  ∧ g !! "Bronze" = Some (Int bronze) ∧ g !! "Total_Medals" = Some (Int total)
  ∧ gold + silver + bronze ≤ total
  ∧ (gold + silver + bronze = total
     ↔ ∀ r, r ∈ records df → r !!! "noc" = g !!! "noc" → recognised (r !!! "medal") = true).
Proof.
  rewrite metrics_by_noc_eq.
  destruct (require_all df ["medal"; "noc"; "name"]); [|done]. simpl.
  intros [= <-]. simpl. intros (k & -> & _)%list_elem_of_fmap.
  rewrite noc_metrics_setitem.
  replace (_ !!! "noc") with k by reflexivity.
  repeat (split; [reflexivity|]).
  pose proof (group_tally (group "noc" k df)) as Ht.
  pose proof (count_rows_nonneg (λ r, negb (recognised (r !!! "medal"))) (group "noc" k df)).
  split; [lia|].
  pose proof (count_rows_zero (λ r, negb (recognised (r !!! "medal"))) (group "noc" k df))
    as Hzero.
  unfold group in *. split.
  - intros Hsum r Hr Hk. apply negb_false_iff.
    apply Hzero; [lia|]. apply list_elem_of_filter. by split.
  - intros Hrec.
    assert (count_rows (λ r, negb (recognised (r !!! "medal")))
              (filter (λ r, r !!! "noc" = k) (records df)) = 0) as Hz; [|lia].
    apply Hzero. intros r [Hk Hr]%list_elem_of_filter. apply negb_false_iff. by apply Hrec.
Qed.

(** The worked example: of the three participations the year range 2000 to
    2000 keeps the two of the USA, and their tally is two athletes and one
    medal, a gold one. *)
Example scenario_tally :
  df_filtered "All" (mkFilters (2000, 2000) (Str "All") []) scenario ≫= metrics_by_noc
  = Ok (mkFrame metrics_cols [tally_row "USA" 2 1 1 0 0]).
Proof. vm_compute. reflexivity. Qed.

Lemma medal_tally_witness :
  count_rows (λ r, eq_str (r !!! "medal") "Gold") (group "noc" (Str "USA") scenario)
  + count_rows (λ r, eq_str (r !!! "medal") "Silver") (group "noc" (Str "USA") scenario)
  + count_rows (λ r, eq_str (r !!! "medal") "Bronze") (group "noc" (Str "USA") scenario)
  ≤ count_rows medal_present (group "noc" (Str "USA") scenario).
Proof.
  refine (proj1 (proj2 (proj2 (proj2 (proj2
    (medal_tally scenario
       (mkFrame metrics_cols [tally_row "FRA" 1 1 0 1 0; tally_row "USA" 2 1 1 0 0])
       (tally_row "USA" 2 1 1 0 0) _ _)))))).
  - vm_compute. reflexivity.
  - right. left.
Defined.

(** C1, as stated, fails on a medal cell that is present, is not the
    placeholder and is not spelled as one of the three medals: it is counted
    in the total and in none of the three counts. *)
Lemma unrecognised_medal_breaks_tally :
  ¬ (∀ (df m : DataFrame) (g : row),
       metrics_by_noc df = Ok m → g ∈ records m →
       ∃ gold silver bronze total : Z,
         g !! "Gold" = Some (Int gold) ∧ g !! "Silver" = Some (Int silver)
         ∧ g !! "Bronze" = Some (Int bronze) ∧ g !! "Total_Medals" = Some (Int total)
         ∧ gold + silver + bronze = total).
Proof.
  intros Hclaim.
  destruct (Hclaim lower_case_medal (mkFrame metrics_cols [tally_row "NOR" 1 1 0 0 0])
              (tally_row "NOR" 1 1 0 0 0))
    as (gold & silver & bronze & total & Hg & Hs & Hb & Ht & Hsum).
  - vm_compute. reflexivity.
  - left.
  - vm_compute in Hg, Hs, Hb, Ht.
    injection Hg as <-. injection Hs as <-. injection Hb as <-. injection Ht as <-.
    discriminate Hsum.
Qed.

(** ** Record Store *)

Lemma require_all_Ok df cs :
  require_all df cs = Ok () ↔ ∀ c, c ∈ cs → has_column df c = true.
Proof.
  induction cs as [|c cs IH]; simpl.
  - split; [|done]. by intros _ c ?%elem_of_nil.
  - unfold require. destruct (has_column df c) eqn:Hc; simpl.
    + rewrite IH. split.
      * intros Hall c' [->|?]%elem_of_cons; [done|by apply Hall].
      * intros Hall c' ?. apply Hall. by right.
    + split; [done|]. intros Hall. rewrite Hall in Hc by left. done.
Qed.

Lemma project_lookup_total cols (r : row) c :
  c ∈ cols → project cols r !!! c = r !!! c.
Proof.
  intros Hc. unfold project.
  induction cols as [|c' cols IH]; [by apply elem_of_nil in Hc|].
  simpl. destruct (decide (c' = c)) as [->|Hne].
  - by rewrite lookup_total_insert_eq.
  - rewrite lookup_total_insert_ne by done. apply IH.
    by apply elem_of_cons in Hc as [?|?].
Qed.

Lemma project_dom cols (r : row) : dom (project cols r) = list_to_set cols.
Proof.
  unfold project. rewrite dom_list_to_map_L, <- list_fmap_compose.
  f_equal. etrans; [|apply list_fmap_id]. by apply list_fmap_ext.
Qed.

Lemma no_nulls_spec cols (r : row) :
  no_nulls cols r = true ↔ ∀ c, c ∈ cols → notna (r !!! c) = true.
Proof.
  unfold no_nulls. rewrite forallb_forall.
  split; intros Hall c Hc; apply Hall; by apply list_elem_of_In.
Qed.

(** The four guards of the loader say that some coordinate column is
    absent. *)
Lemma coord_guard df :
  negb (has_column df "noc") || negb (has_column df "country")
  || negb (has_column df "latitude") || negb (has_column df "longitude")
  = negb (forallb (has_column df) coord_cols).
Proof.
  simpl.
  by destruct (has_column df "noc"), (has_column df "country"),
    (has_column df "latitude"), (has_column df "longitude").
Qed.


(** C10. The coordinate loader always returns, and what it returns is a
    frame with exactly the four coordinate columns whose records have a
    value in each of them: the records of the file that do, when the file
    is a table with the four columns (and nothing is shown), and no record
    at all, with one error shown, when the file is absent, unreadable or
    lacks one of the columns. *)
Theorem load_noc_coords_total (filepath : string) (file : csv_file) :
  ∃ df log,
    load_noc_coords filepath file = Ok (df, log)
    ∧ columns df = coord_cols
    ∧ (∀ r, r ∈ records df →
         dom r = list_to_set coord_cols ∧ ∀ c, c ∈ coord_cols → notna (r !!! c) = true)
    ∧ match file with
      | Table t =>
          if forallb (has_column t) coord_cols
          then records df = project coord_cols <$> records (loc_mask (no_nulls coord_cols) t)
               ∧ log = []
          else records df = [] ∧ ∃ msg, log = [st_error msg]
      | Missing | Unreadable _ => records df = [] ∧ ∃ msg, log = [st_error msg]
      end.
Proof.
  destruct file as [|msg|t].
  - eexists _, _. split; [reflexivity|].
    split; [done|]. split; [by intros r ?%elem_of_nil|eauto].
  - eexists _, _. split; [reflexivity|].
    split; [done|]. split; [by intros r ?%elem_of_nil|eauto].
  - unfold load_noc_coords, read_csv. cbn [mbind Exc_bind].
    rewrite coord_guard.
    destruct (forallb (has_column t) coord_cols) eqn:Hall; cbn [negb].
    + assert (∀ c, c ∈ coord_cols → has_column t c = true) as Hcols.
      { intros c Hc. rewrite forallb_forall in Hall. apply Hall. by apply list_elem_of_In. }
      unfold dropna, getitem_cols.
      rewrite (proj2 (require_all_Ok t coord_cols)) by done. cbn [mbind Exc_bind].
      rewrite (proj2 (require_all_Ok (loc_mask _ t) coord_cols)) by done.
      cbn [mbind Exc_bind try_except].
      eexists _, _. split; [reflexivity|].
      split; [done|]. split; [|lazy iota; by split].
      intros r (r0 & -> & Hr0)%list_elem_of_fmap.
      apply elem_of_loc_mask in Hr0 as [Hnn _].
      split; [apply project_dom|].
      intros c Hc. rewrite project_lookup_total by done.
      by apply (proj1 (no_nulls_spec coord_cols r0)).
    + eexists _, _. split; [reflexivity|].
      split; [done|]. split; [by intros r ?%elem_of_nil|]. lazy iota. eauto.
Qed.


(** C3, as amended.  When the main table lacks an essential column, the
    loader shows one error that names the absent columns and returns the
    frame without rows or columns as an ordinary value; no exception is
    raised.  A run of the dashboard on that frame shows a second error and
    stops before it filters anything. *)
Theorem load_data_missing_columns (filepath : string) (t : DataFrame) :
  (∃ c, c ∈ essential_cols ∧ c ∉ columns t) →
  load_data filepath (Table t)
  = Ok (empty_frame,
        [st_error ("Missing essential columns in '" ++ filepath ++ "': "
                   ++ String.concat ", " (filter (λ c, c ∉ columns t) essential_cols))])
  ∧ ∀ (K : SortKind) w df_olympics df_coords σ,
      heap σ !! df_olympics = Some empty_frame →
      dashboard w df_olympics df_coords σ
      = (Raise StopException,
         mkSession (heap σ)
           (shown σ ++ [st_error "Main data file ('jjoo.csv') could not be loaded. The app cannot proceed."])).
Proof.
  intros (c & Hc & Hmiss). split.
  - unfold load_data. simpl.
    rewrite bool_decide_eq_false_2; [done|].
    intros Hnil. by apply (filter_nil_not_elem_of _ _ c Hnil).
  - intros K w ℓo ℓc σ Hload.
    unfold dashboard, mbind, Script_bind, read. by rewrite Hload.
Qed.

Lemma load_data_missing_columns_witness :
  load_data "jjoo.csv" (Table scenario)
  = Ok (empty_frame,
        [st_error "Missing essential columns in 'jjoo.csv': type, age, discipline_grouped, discipline"]).
Proof.
  refine (proj1 (load_data_missing_columns "jjoo.csv" scenario _)).
  exists "type". split; [vm_compute; repeat first [by left | right] |].
  vm_compute. intros H. repeat (apply elem_of_cons in H as [H|H]; [discriminate H|]).
  by apply elem_of_nil in H.
Defined.

(** C3, as stated, fails: on a table without the essential columns the
    loader does not raise. *)
Lemma load_data_does_not_raise :
  ¬ (∀ (filepath : string) (t : DataFrame),
       (∃ c, c ∈ essential_cols ∧ c ∉ columns t) →
       ∃ e, load_data filepath (Table t) = Raise e).
Proof.
  intros Hclaim. destruct (Hclaim "jjoo.csv" scenario) as [e He].
  - exists "type". split; [repeat first [by left | right] |].
    intros H. repeat (apply elem_of_cons in H as [H|H]; [discriminate H|]).
    by apply elem_of_nil in H.
  - discriminate He.
Qed.

(** ** Aggregator: rankings *)



(** Had the ranking of the countries asked for a stable sort, it would be
    the ranking [nlargest] gives. *)
Lemma top_countries_stable sort_by n metrics :
  has_column metrics sort_by = true →
  (∀ r, r ∈ records metrics → notna (r !!! sort_by) = true) →
  top_countries (H := kind_stable) sort_by n metrics = Ok (nlargest n sort_by metrics).
Proof.
  intros Hcol Hval. unfold top_countries, sort_values, require. rewrite Hcol. simpl.
  unfold head, nlargest. simpl. do 4 f_equal.
  symmetry. apply (f_equal records (loc_mask_all (λ r, notna (r !!! sort_by)) metrics Hval)).
Qed.




(** ** Join Resolver *)








(** ** Aggregator: the numeric summary *)





Lemma elem_of_unique {A} `{EqDecision A} (l : list A) x : x ∈ unique l ↔ x ∈ l.
Proof. unfold unique. by rewrite elem_of_reverse, elem_of_remove_dups, elem_of_reverse. Qed.

Lemma elem_of_group_keys by_ df k :
  k ∈ group_keys by_ df ↔ notna k = true ∧ ∃ r, r ∈ records df ∧ r !!! by_ = k.
Proof.
  unfold group_keys, dropna_cells, cells_of.
  rewrite stable_sort_perm, elem_of_unique, list_elem_of_filter, list_elem_of_fmap.
  rewrite Is_true_true. split.
  - intros [Hk (r & -> & Hr)]. split; [done|]. by exists r.
  - intros [Hk (r & Hr & <-)]. split; [done|]. by exists r.
Qed.

Lemma elem_of_group by_ k df r :
  r ∈ group by_ k df ↔ r !!! by_ = k ∧ r ∈ records df.
Proof. unfold group. by rewrite list_elem_of_filter. Qed.



Lemma numeric_col_spec df c :
  numeric_col df c = true ↔ ∀ r, r ∈ records df → is_str (r !!! c) = false.
Proof.
  unfold numeric_col. rewrite forallb_forall. split.
  - intros Hall r Hr. apply negb_true_iff, Hall. by apply list_elem_of_In.
  - intros Hall r Hr. apply negb_true_iff, Hall. by apply list_elem_of_In.
Qed.



(** ** The loaded tables are never changed *)

Section Frame.
Context (L : gset loc).

Lemma agree_dom σ σ' : L ⊆ dom (heap σ) → agree L σ σ' → L ⊆ dom (heap σ').
Proof.
  intros Hdom Hag ℓ Hℓ. apply elem_of_dom. rewrite (Hag ℓ Hℓ).
  apply elem_of_dom. by apply Hdom.
Qed.

Lemma safe_ret {A} (a : A) (Φ : A → Prop) : Φ a → safe L (mret a) Φ.
Proof. intros Ha σ _. split; [done|]. by intros a' [= <-]. Qed.

Lemma safe_bind {A B} (m : Script A) (k : A → Script B) Φ Ψ :
  safe L m Φ → (∀ a, Φ a → safe L (k a) Ψ) → safe L (m ≫= k) Ψ.
Proof.
  intros Hm Hk σ Hdom. destruct (Hm σ Hdom) as [Hag Hret].
  unfold mbind, Script_bind. destruct (m σ) as [[a|e] σ1]; simpl in *.
  - destruct (Hk a (Hret a eq_refl) σ1 (agree_dom _ _ Hdom Hag)) as [Hag' Hret'].
    split; [|done]. intros ℓ Hℓ. by rewrite (Hag' ℓ Hℓ), (Hag ℓ Hℓ).
  - by split.
Qed.

Lemma safe_new df : safe L (new df) (outside L).
Proof.
  intros σ Hdom. unfold new; simpl.
  assert (fresh (dom (heap σ)) ∉ L) as Hfresh.
  { intros Hin. apply (is_fresh (dom (heap σ))). by apply Hdom. }
  split.
  - intros ℓ Hℓ. simpl. rewrite lookup_insert_ne; [done|]. by intros <-.
  - by intros ℓ [= <-].
Qed.

Lemma safe_update ℓ df : outside L ℓ → safe L (update ℓ df) anything.
Proof.
  intros Hout σ _. unfold update; simpl. split; [|done].
  intros ℓ' Hℓ'. simpl. rewrite lookup_insert_ne; [done|]. by intros <-.
Qed.

Lemma safe_read ℓ : safe L (read ℓ) anything.
Proof. intros σ _. unfold read. by destruct (heap σ !! ℓ). Qed.

Lemma safe_lift {A} (e : Exc A) : safe L (lift e) anything.
Proof. by intros σ _. Qed.

Lemma safe_st c : safe L (st c) anything.
Proof. by intros σ _. Qed.

Lemma safe_stop {A} (Φ : A → Prop) : safe L st_stop Φ.
Proof. by intros σ _. Qed.

Lemma safe_rebind cond f ℓ : outside L ℓ → safe L (rebind cond f ℓ) (outside L).
Proof.
  intros Hout. unfold rebind. destruct cond; [|by apply safe_ret].
  eapply safe_bind; [apply safe_read|]. intros d _. apply safe_new.
Qed.

Lemma safe_inplace f ℓ : outside L ℓ → safe L (inplace f ℓ) anything.
Proof.
  intros Hout. unfold inplace.
  eapply safe_bind; [apply safe_read|]. intros d _.
  eapply safe_bind; [apply safe_lift|]. intros d' _.
  by apply safe_update.
Qed.

Lemma safe_derive f ℓ : safe L (derive f ℓ) (outside L).
Proof.
  unfold derive.
  eapply safe_bind; [apply safe_read|]. intros d _.
  eapply safe_bind; [apply safe_lift|]. intros d' _.
  apply safe_new.
Qed.
End Frame.

(** One step of a script: the rule for the command at the head, then the
    rest under the fact the command established. *)
Ltac safe_head :=
  first
    [ apply safe_new | apply safe_derive
    | apply safe_rebind; assumption | apply safe_inplace; assumption
    | apply safe_update; assumption
    | apply safe_read | apply safe_lift | apply safe_st | apply safe_stop ].

Ltac safe_steps :=
  repeat first
    [ progress safe_head
    | match goal with
      | |- safe _ (if ?b then _ else _) _ => destruct b
      | |- safe _ (mret _) _ =>
          apply safe_ret; repeat first [apply Forall_cons_2 | apply Forall_nil_2
                                        | apply Forall_app_2]; try assumption
      | |- safe ?L (@mbind _ _ (list loc) _ ?k ?m) _ =>
          apply (safe_bind L m k (Forall (outside L))); [|intros ? ?]
      | |- safe ?L (@mbind _ _ loc _ ?k ?m) _ =>
          apply (safe_bind L m k (outside L)); [|intros ? ?]
      | |- safe ?L (@mbind _ _ _ _ ?k ?m) _ =>
          apply (safe_bind L m k anything); [|intros ? _]
      end ].

Section Dashboard_frame.
Context `{SortKind} (L : gset loc).

Lemma safe_tab_overview ℓ : safe L (tab_overview ℓ) (Forall (outside L)).
Proof. unfold tab_overview. safe_steps. Qed.

Lemma safe_tab_geo w ℓ ℓc :
  outside L ℓ → safe L (tab_geo w ℓ ℓc) (Forall (outside L)).
Proof. intros Hℓ. unfold tab_geo. safe_steps. Qed.

Lemma safe_tab_athletes w ℓ : safe L (tab_athletes w ℓ) (Forall (outside L)).
Proof. unfold tab_athletes. safe_steps. Qed.

Lemma safe_tab_disciplines w ℓ : safe L (tab_disciplines w ℓ) (Forall (outside L)).
Proof. unfold tab_disciplines. safe_steps. Qed.

Lemma safe_dashboard w ℓo ℓc : safe L (dashboard w ℓo ℓc) (Forall (outside L)).
Proof.
  unfold dashboard. safe_steps;
    first [ apply safe_tab_overview | by apply safe_tab_geo
          | apply safe_tab_athletes | apply safe_tab_disciplines ].
Qed.

Lemma rerun_all_agree ws ℓo ℓc σ :
  L ⊆ dom (heap σ) → agree L σ (rerun_all ws ℓo ℓc σ).
Proof.
  revert σ. induction ws as [|w ws IH]; intros σ Hdom; [done|].
  simpl. destruct (safe_dashboard w ℓo ℓc σ Hdom) as [Hag _].
  intros ℓ Hℓ. rewrite (IH _ (agree_dom _ _ _ Hdom Hag) ℓ Hℓ). by apply Hag.
Qed.
End Dashboard_frame.

(** C4.  Whatever the widgets say and however often the script runs
    again, every object that exists when a run starts, and so the main
    table and the coordinate table that were loaded, is afterwards what it
    was, also when the run stops or raises; and every frame that a run binds
    to a variable of its own, the filtered view among them, is a new object.
    The in-place operations of the script (the helper column, the integer
    conversion, the removal of records without a value) act on those new
    objects only. *)
Theorem loaded_tables_never_mutated (K : SortKind) (df_olympics df_coords : loc)
  (σ : session) :
  (∀ ws ℓ, ℓ ∈ dom (heap σ) →
     heap (rerun_all ws df_olympics df_coords σ) !! ℓ = heap σ !! ℓ)
  ∧ (∀ w ℓ, ℓ ∈ dom (heap σ) →
       heap (dashboard w df_olympics df_coords σ).2 !! ℓ = heap σ !! ℓ)
  ∧ (∀ w views, (dashboard w df_olympics df_coords σ).1 = Ok views →
       ∀ ℓ, ℓ ∈ views → ℓ ∉ dom (heap σ)).
Proof.
  split; [|split].
  - intros ws ℓ Hℓ. by apply (rerun_all_agree (dom (heap σ))).
  - intros w ℓ Hℓ. by apply (safe_dashboard (dom (heap σ)) w df_olympics df_coords σ).
  - intros w views Hrun ℓ Hℓ.
    destruct (safe_dashboard (dom (heap σ)) w df_olympics df_coords σ) as [_ Hnew]; [done|].
    specialize (Hnew views Hrun). rewrite Forall_forall in Hnew. by apply Hnew.
Qed.


Lemma loaded_tables_witness :
  heap (dashboard (H := kind_stable) first_run 0 1 loaded).2 !! 0%nat = Some main_table
  ∧ heap (dashboard (H := kind_stable) first_run 0 1 loaded).2 !! 1%nat = Some sample_coords
  ∧ (columns <$> heap (dashboard (H := kind_stable) first_run 0 1 loaded).2 !! 3%nat)
    = Some (essential_cols ++ ["medal_present"])%list.
Proof.
  destruct (loaded_tables_never_mutated kind_stable 0 1 loaded) as (_ & Hrun & _).
  split; [|split].
  - rewrite Hrun; [reflexivity|]. apply elem_of_dom. by eexists.
  - rewrite Hrun; [reflexivity|]. apply elem_of_dom. by eexists.
  - vm_compute. reflexivity.
Defined.

(** * Further properties *)

(** ** Filter Engine: what a view holds *)

Lemma year_between_spec lo hi (r : row) :
  year_between lo hi r = true
  ↔ ∃ y, to_Q (r !!! "year") = Some y ∧ (inject_Z lo <= y)%Q ∧ (y <= inject_Z hi)%Q.
Proof.
  unfold year_between, ge_scalar, le_scalar.
  destruct (to_Q (r !!! "year")) as [y|].
  - rewrite andb_true_iff, !Qle_bool_iff. split.
    + intros [? ?]. by exists y.
    + by intros (y' & [= <-] & ? & ?).
  - split; [done|]. by intros (y & ? & _).
Qed.

(** X1.  The view of the sidebar filter has the columns of the table and holds,
    in their order, the rows of the table that pass every setting: a year
    that is present and within the bounds, both inclusive; the selected
    games type, unless the "all" option is selected or the column is absent;
    a gender among the selected ones, unless none is selected or the column
    is absent. *)
Theorem df_filtered_selects all_label (f : filters) (df d : DataFrame) :
  df_filtered all_label f df = Ok d →
  columns d = columns df
  ∧ records d `sublist_of` records df
  ∧ ∀ r, r ∈ records d ↔
      r ∈ records df
      ∧ (∃ y, to_Q (r !!! "year") = Some y
              ∧ (inject_Z (selected_years f).1 <= y)%Q
              ∧ (y <= inject_Z (selected_years f).2)%Q)
      ∧ (ne_str (selected_type f) all_label = false ∨ has_column df "type" = false
         ∨ eq_scalar (r !!! "type") (selected_type f) = true)
      ∧ (selected_gender f = [] ∨ has_column df "gender" = false
         ∨ isin (r !!! "gender") (selected_gender f) = true).
Proof.
  rewrite df_filtered_mask. unfold require, require_numeric.
  destruct (has_column df "year"); [|done]. simpl.
  destruct (numeric_col df "year"); [|done]. simpl.
  intros [= <-]. split; [done|]. split; [apply sublist_filter|].
  intros r. rewrite elem_of_loc_mask. unfold keeps.
  rewrite !andb_true_iff, year_between_spec. fold (has_column df "type").
  fold (has_column df "gender").
  destruct (ne_str (selected_type f) all_label), (has_column df "type"),
    (bool_decide_reflect (selected_gender f = [])), (has_column df "gender");
    simpl; intuition (try congruence; try discriminate).
Qed.

Lemma df_filtered_selects_witness :
  records (loc_mask (λ r, eq_str (r !!! "gender") "Male") two_genders)
  `sublist_of` records two_genders.
Proof.
  apply (df_filtered_selects "All" (mkFilters (1896, 2024) (Str "All") [Str "Male"])
           two_genders (loc_mask (λ r, eq_str (r !!! "gender") "Male") two_genders)).
  vm_compute. reflexivity.
Defined.

(** ** Filter Engine: order and refinement of the steps *)

Lemma loc_mask_comm p q df : loc_mask p (loc_mask q df) = loc_mask q (loc_mask p df).
Proof.
  rewrite !loc_mask_loc_mask. apply loc_mask_ext. intros r _. apply andb_comm.
Qed.

(** X2.  The three steps of the sidebar filter can be taken in any order. *)
Theorem filter_steps_commute all_label (sel : cell) (gs : list cell) lo hi (df : DataFrame) :
  filter_type all_label sel (filter_gender gs df)
  = filter_gender gs (filter_type all_label sel df)
  ∧ filter_type all_label sel (loc_mask (year_between lo hi) df)
    = loc_mask (year_between lo hi) (filter_type all_label sel df)
  ∧ filter_gender gs (loc_mask (year_between lo hi) df)
    = loc_mask (year_between lo hi) (filter_gender gs df).
Proof.
  rewrite !filter_type_mask, !filter_gender_mask, ?filter_type_mask.
  rewrite ?has_column_loc_mask.
  repeat split; apply loc_mask_comm.
Qed.

Lemma ge_scalar_mono c lo lo' : lo ≤ lo' → ge_scalar c lo' = true → ge_scalar c lo = true.
Proof.
  unfold ge_scalar. destruct (to_Q c) as [q|]; [|done].
  rewrite !Qle_bool_iff. intros Hle Hq.
  eapply Qle_trans; [|exact Hq]. by rewrite <- Zle_Qle.
Qed.

Lemma le_scalar_mono c hi hi' : hi' ≤ hi → le_scalar c hi' = true → le_scalar c hi = true.
Proof.
  unfold le_scalar. destruct (to_Q c) as [q|]; [|done].
  rewrite !Qle_bool_iff. intros Hle Hq.
  eapply Qle_trans; [exact Hq|]. by rewrite <- Zle_Qle.
Qed.

Lemma isin_subseteq c (sel' sel : list cell) :
  sel' ⊆ sel → isin c sel' = true → isin c sel = true.
Proof.
  intros Hsub. unfold isin.
  destruct c; rewrite !existsb_exists; intros (v & Hv & Hc); exists v;
    (split; [|done]); apply list_elem_of_In, Hsub; by apply list_elem_of_In.
Qed.

Lemma keeps_narrower all_label f' f cols r :
  narrower all_label f' f →
  keeps all_label f' cols r = true → keeps all_label f cols r = true.
Proof.
  intros (Hlo & Hhi & Hty & Hg). unfold keeps, year_between.
  rewrite !andb_true_iff. intros [[[Hge Hle] Ht'] Hg'].
  repeat split.
  - by apply (ge_scalar_mono _ _ _ Hlo).
  - by apply (le_scalar_mono _ _ _ Hhi).
  - destruct Hty as [Hall|Heq]; [by rewrite Hall | by rewrite Heq].
  - destruct Hg as [Hnil|[Hne Hsub]]; [by rewrite Hnil|].
    rewrite (bool_decide_eq_false_2 _ Hne) in Hg'.
    destruct (negb (bool_decide (selected_gender f = [])) && bool_decide ("gender" ∈ cols))
      eqn:Hc; [|done].
    apply andb_true_iff in Hc as [_ Hcol]. rewrite Hcol in Hg'. simpl in Hg'.
    by apply (isin_subseteq _ _ _ Hsub).
Qed.

(** X3.  Drilling down: filtering a view again with narrower settings gives what
    the narrower settings give on the table itself, and raises what they
    raise there. *)
Theorem df_filtered_refine all_label (f' f : filters) (df : DataFrame) :
  narrower all_label f' f →
  df_filtered all_label f df ≫= df_filtered all_label f' = df_filtered all_label f' df.
Proof.
  intros Hn. rewrite (df_filtered_mask all_label f df), (df_filtered_mask all_label f' df).
  unfold require, require_numeric.
  destruct (has_column df "year") eqn:Hy; [|done]. simpl.
  destruct (numeric_col df "year") eqn:Hnum; [|done]. simpl.
  rewrite df_filtered_mask. unfold require, require_numeric.
  rewrite has_column_loc_mask, Hy. simpl.
  rewrite numeric_col_loc_mask by done. simpl. f_equal.
  rewrite loc_mask_loc_mask. apply loc_mask_ext. intros r _. simpl.
  destruct (keeps all_label f' (columns df) r) eqn:Hk'.
  - by rewrite (keeps_narrower _ _ _ _ _ Hn Hk').
  - apply andb_false_r.
Qed.

Lemma df_filtered_refine_witness :
  df_filtered "All" (mkFilters (1896, 2024) (Str "All") []) two_genders
    ≫= df_filtered "All" (mkFilters (2004, 2004) (Str "All") [Str "Male"])
  = df_filtered "All" (mkFilters (2004, 2004) (Str "All") [Str "Male"]) two_genders.
Proof.
  apply df_filtered_refine. repeat split; simpl; try lia; by left.
Defined.

(** ** Filter Engine: the first view *)

Lemma foldl_Qmin_le x xs : ∀ y, y ∈ x :: xs → (foldl Qmin x xs <= y)%Q.
Proof.
  revert x. induction xs as [|z xs IH]; intros x y Hy; simpl.
  - apply list_elem_of_singleton in Hy as ->. apply Qle_refl.
  - apply elem_of_cons in Hy as [->|Hy].
    + eapply Qle_trans; [apply IH; left|]. apply Q.le_min_l.
    + apply elem_of_cons in Hy as [->|Hy].
      * eapply Qle_trans; [apply IH; left|]. apply Q.le_min_r.
      * apply IH. by right.
Qed.

Lemma foldl_Qmax_ge x xs : ∀ y, y ∈ x :: xs → (y <= foldl Qmax x xs)%Q.
Proof.
  revert x. induction xs as [|z xs IH]; intros x y Hy; simpl.
  - apply list_elem_of_singleton in Hy as ->. apply Qle_refl.
  - apply elem_of_cons in Hy as [->|Hy].
    + eapply Qle_trans; [|apply IH; left]. apply Q.le_max_l.
    + apply elem_of_cons in Hy as [->|Hy].
      * eapply Qle_trans; [|apply IH; left]. apply Q.le_max_r.
      * apply IH. by right.
Qed.

Lemma foldl_Qmin_whole x xs :
  (∀ y, y ∈ x :: xs → ∃ z, (y == inject_Z z)%Q) → ∃ z, (foldl Qmin x xs == inject_Z z)%Q.
Proof.
  revert x. induction xs as [|y xs IH]; intros x Hall; simpl.
  - apply Hall. left.
  - apply IH. intros y' [->|Hy']%elem_of_cons.
    + destruct (Q.min_dec x y) as [Hm|Hm].
      * destruct (Hall x) as [z Hz]; [left|]. exists z. by rewrite Hm.
      * destruct (Hall y) as [z Hz]; [right; left|]. exists z. by rewrite Hm.
    + apply Hall. by do 2 right.
Qed.

Lemma foldl_Qmax_whole x xs :
  (∀ y, y ∈ x :: xs → ∃ z, (y == inject_Z z)%Q) → ∃ z, (foldl Qmax x xs == inject_Z z)%Q.
Proof.
  revert x. induction xs as [|y xs IH]; intros x Hall; simpl.
  - apply Hall. left.
  - apply IH. intros y' [->|Hy']%elem_of_cons.
    + destruct (Q.max_dec x y) as [Hm|Hm].
      * destruct (Hall x) as [z Hz]; [left|]. exists z. by rewrite Hm.
      * destruct (Hall y) as [z Hz]; [right; left|]. exists z. by rewrite Hm.
    + apply Hall. by do 2 right.
Qed.

Lemma int_of_float_whole q z : (q == inject_Z z)%Q → int_of_float q = z.
Proof.
  unfold Qeq, int_of_float. simpl. rewrite Z.mul_1_r. intros ->.
  apply Z.quot_mul. done.
Qed.

Lemma elem_of_present_values (l : list cell) q :
  q ∈ omap to_Q l ↔ ∃ c, c ∈ l ∧ to_Q c = Some q.
Proof. apply list_elem_of_omap. Qed.

(** The default of the year slider lets every year of a column of whole
    numbers through. *)
Lemma default_years_cover df lo hi r :
  (∀ r, r ∈ records df → whole_or_missing (r !!! "year")) →
  default_years df = Ok (lo, hi) →
  r ∈ records df →
  year_between lo hi r = notna (r !!! "year").
Proof.
  intros Hwhole. unfold default_years, require.
  destruct (has_column df "year"); [|done]. simpl.
  assert (numeric_col df "year" = true) as ->.
  { apply numeric_col_spec. intros r' Hr'. specialize (Hwhole r' Hr').
    unfold whole_or_missing in Hwhole. by destruct (r' !!! "year"). }
  unfold series_min, series_max.
  destruct (omap to_Q (cells_of "year" (records df))) as [|x xs] eqn:Hvals; [done|].
  intros [= <- <-] Hr.
  assert (∀ y, y ∈ x :: xs → ∃ z, (y == inject_Z z)%Q) as Hint.
  { intros y Hy. rewrite <- Hvals in Hy.
    apply elem_of_present_values in Hy as (c & Hc & Hq).
    apply list_elem_of_fmap in Hc as (r' & -> & Hr').
    specialize (Hwhole r' Hr'). unfold whole_or_missing in Hwhole. by rewrite Hq in Hwhole. }
  destruct (foldl_Qmin_whole x xs Hint) as [zlo Hlo].
  destruct (foldl_Qmax_whole x xs Hint) as [zhi Hhi].
  rewrite (int_of_float_whole _ _ Hlo), (int_of_float_whole _ _ Hhi).
  unfold year_between, ge_scalar, le_scalar.
  destruct (to_Q (r !!! "year")) as [y|] eqn:Hy.
  - assert (y ∈ x :: xs) as Hin.
    { rewrite <- Hvals. apply elem_of_present_values. exists (r !!! "year").
      split; [|done]. apply list_elem_of_fmap. by exists r. }
    replace (notna (r !!! "year")) with true by (by destruct (r !!! "year")).
    apply andb_true_iff. rewrite !Qle_bool_iff. split.
    + rewrite <- Hlo. by apply foldl_Qmin_le.
    + rewrite <- Hhi. by apply foldl_Qmax_ge.
  - specialize (Hwhole r Hr). unfold whole_or_missing in Hwhole. rewrite Hy in Hwhole.
    by rewrite Hwhole.
Qed.

Lemma eq_scalar_refl c : notna c = true → eq_scalar c c = true.
Proof.
  destruct c as [|s|z|q|b]; intros Hc; try done; simpl.
  - apply String.eqb_refl.
  - apply Qeq_bool_iff. reflexivity.
  - apply Qeq_bool_iff. reflexivity.
  - apply Qeq_bool_iff. reflexivity.
Qed.

(** With every option selected, the membership mask lets through the
    genders that are present. *)
Lemma isin_gender_options df r :
  r ∈ records df → has_column df "gender" = true →
  isin (r !!! "gender") (gender_options df) = notna (r !!! "gender").
Proof.
  intros Hr Hcol. unfold gender_options. rewrite Hcol.
  destruct (notna (r !!! "gender")) eqn:Hna.
  - assert (r !!! "gender"
            ∈ filter (λ g, notna g) (unique (cells_of "gender" (records df)))) as Hin.
    { apply list_elem_of_filter. split; [by apply Is_true_true|].
      apply elem_of_unique, list_elem_of_fmap. by exists r. }
    assert (existsb (eq_scalar (r !!! "gender"))
              (filter (λ g, notna g) (unique (cells_of "gender" (records df)))) = true) as Hex.
    { apply existsb_exists. exists (r !!! "gender").
      split; [by apply list_elem_of_In | by apply eq_scalar_refl]. }
    unfold isin. by destruct (r !!! "gender").
  - destruct (r !!! "gender"); try done. simpl.
    apply not_true_is_false. intros (v & Hv & Hnv)%existsb_exists.
    apply list_elem_of_In, list_elem_of_filter in Hv as [Hv _].
    apply Is_true_true in Hv. by rewrite Hv in Hnv.
Qed.

(** X4.  The dashboard before the user touches the sidebar: on a table whose
    years are whole numbers, the first view holds the rows that have a year
    and, when the table has any gender at all, a gender. *)
Theorem initial_view all_label (df : DataFrame) (f : filters) :
  (∀ r, r ∈ records df → whole_or_missing (r !!! "year")) →
  default_filters all_label df = Ok f →
  df_filtered all_label f df
  = Ok (loc_mask (λ r, notna (r !!! "year")
                       && (bool_decide (gender_options df = []) || notna (r !!! "gender")))
          df).
Proof.
  intros Hwhole. unfold default_filters.
  destruct (default_years df) as [[lo hi]|] eqn:Hyears; [|done]. simpl.
  intros [= <-]. rewrite df_filtered_mask.
  pose proof Hyears as Hy. unfold default_years, require in Hy.
  unfold require, require_numeric.
  destruct (has_column df "year"); [|done]. simpl.
  assert (numeric_col df "year" = true) as ->.
  { apply numeric_col_spec. intros r' Hr'. specialize (Hwhole r' Hr').
    unfold whole_or_missing in Hwhole. by destruct (r' !!! "year"). }
  simpl. f_equal. apply loc_mask_ext. intros r Hr. unfold keeps. simpl.
  rewrite (default_years_cover df lo hi r Hwhole Hyears Hr).
  unfold ne_str, eq_str. simpl. rewrite String.eqb_refl. simpl. rewrite andb_true_r.
  f_equal. change (bool_decide ("gender" ∈ columns df)) with (has_column df "gender").
  destruct (bool_decide_reflect (gender_options df = [])) as [Hnil|Hne]; [done|].
  pose proof (gender_options_column df Hne) as Hcol. rewrite Hcol. simpl.
  by apply isin_gender_options.
Qed.

Lemma initial_view_witness :
  default_filters "All" some_missing
  = Ok (mkFilters (2000, 2004) (Str "All") [Str "Male"; Str "Female"])
  ∧ df_filtered "All" (mkFilters (2000, 2004) (Str "All") [Str "Male"; Str "Female"])
      some_missing
    = Ok (mkFrame ["year"; "gender"] [ {[ "year" := Int 2000; "gender" := Str "Male" ]} ]).
Proof.
  assert (default_filters "All" some_missing
          = Ok (mkFilters (2000, 2004) (Str "All") [Str "Male"; Str "Female"])) as Hf
    by (vm_compute; reflexivity).
  split; [exact Hf|].
  rewrite (initial_view "All" some_missing _); [vm_compute; reflexivity | | exact Hf].
  intros r Hr. unfold some_missing in Hr. simpl in Hr.
  repeat (apply elem_of_cons in Hr as [->|Hr]); [| | |by apply elem_of_nil in Hr].
  - exists 2000. reflexivity.
  - exists 2004. reflexivity.
  - reflexivity.
Defined.

(** ** Aggregator: the groups of a view *)

Lemma NoDup_unique {A} `{EqDecision A} (l : list A) : NoDup (unique l).
Proof. unfold unique. rewrite reverse_Permutation. apply NoDup_remove_dups. Qed.

Lemma NoDup_group_keys by_ df : NoDup (group_keys by_ df).
Proof.
  unfold group_keys. rewrite stable_sort_perm. apply NoDup_unique.
Qed.

Lemma filter_group_comm (p : row → bool) by_ (k : cell) (l : list row) :
  filter (λ r, p r) (filter (λ r, r !!! by_ = k) l)
  = filter (λ r, r !!! by_ = k) (filter (λ r, p r) l).
Proof.
  induction l as [|r l IH]; [done|].
  destruct (decide (r !!! by_ = k)) as [Hk|Hk]; destruct (p r) eqn:Hp.
  - rewrite (filter_cons_True (λ r, r !!! by_ = k)) by done.
    rewrite !(filter_cons_True (λ r, p r)) by (by apply Is_true_true).
    rewrite (filter_cons_True (λ r, r !!! by_ = k)) by done. by rewrite IH.
  - rewrite (filter_cons_True (λ r, r !!! by_ = k)) by done.
    rewrite !(filter_cons_False (λ r, p r)) by (by apply Is_true_false).
    done.
  - rewrite (filter_cons_False (λ r, r !!! by_ = k)) by done.
    rewrite (filter_cons_True (λ r, p r)) by (by apply Is_true_true).
    rewrite (filter_cons_False (λ r, r !!! by_ = k)) by done. done.
  - rewrite (filter_cons_False (λ r, r !!! by_ = k)) by done.
    rewrite (filter_cons_False (λ r, p r)) by (by apply Is_true_false).
    done.
Qed.

(** Records fall into the group of their key and into no other: over keys
    without repetition, the sizes of the groups add up to the number of
    records whose key is one of them. *)
Lemma sum_int_groups {K} `{EqDecision K} (f : row → K) (ks : list K) (l : list row) :
  NoDup ks →
  sum_int ((λ k, Int (Z.of_nat (length (filter (λ r, f r = k) l)))) <$> ks)
  = Z.of_nat (length (filter (λ r, f r ∈ ks) l)).
Proof.
  induction 1 as [|k ks Hk Hnd IH].
  - induction l as [|r l IHl]; [done|].
    rewrite filter_cons_False; [done|]. apply not_elem_of_nil.
  - rewrite fmap_cons. change (sum_int (?c :: ?cs)) with (int_of c + sum_int cs).
    rewrite IH. clear IH. simpl int_of. induction l as [|r l IHl]; [done|].
    destruct (decide (f r = k)) as [Hr|Hr].
    + rewrite (filter_cons_True (λ r, f r = k)) by done.
      rewrite (filter_cons_True (λ r, f r ∈ k :: ks)) by (rewrite Hr; left).
      rewrite (filter_cons_False (λ r, f r ∈ ks)) by (by rewrite Hr).
      simpl length. lia.
    + rewrite (filter_cons_False (λ r, f r = k)) by done.
      destruct (decide (f r ∈ ks)) as [Hin|Hin].
      * rewrite (filter_cons_True (λ r, f r ∈ k :: ks)) by (by right).
        rewrite (filter_cons_True (λ r, f r ∈ ks)) by done.
        simpl length. lia.
      * rewrite (filter_cons_False (λ r, f r ∈ k :: ks))
          by (by intros [?|?]%elem_of_cons).
        rewrite (filter_cons_False (λ r, f r ∈ ks)) by done. done.
Qed.

Lemma String_compare_lt_trans (s t u : string) :
  String.compare s t = Lt → String.compare t u = Lt → String.compare s u = Lt.
Proof.
  revert t u. induction s as [|a s IH]; intros [|b t] [|c u]; simpl; try done.
  unfold Ascii.compare.
  destruct (N.compare_spec (N_of_ascii a) (N_of_ascii b)) as [Hab|Hab|Hab]; [| |done];
    destruct (N.compare_spec (N_of_ascii b) (N_of_ascii c)) as [Hbc|Hbc|Hbc]; try done;
    intros H1 H2.
  - rewrite Hab, Hbc, N.compare_refl. by apply (IH t).
  - rewrite Hab. by apply N.compare_lt_iff in Hbc as ->.
  - rewrite <- Hbc. by apply N.compare_lt_iff in Hab as ->.
  - assert (N_of_ascii a < N_of_ascii c)%N as Hac by lia.
    by apply N.compare_lt_iff in Hac as ->.
Qed.

Lemma String_leb_trans (s t u : string) :
  String.leb s t = true → String.leb t u = true → String.leb s u = true.
Proof.
  unfold String.leb.
  destruct (String.compare s t) eqn:Hst; [|
    destruct (String.compare t u) eqn:Htu; [| |done] |done]; intros _ H2.
  - by apply String.compare_eq_iff in Hst as ->.
  - by apply String.compare_eq_iff in Htu as <-; rewrite Hst.
  - by rewrite (String_compare_lt_trans s t u).
Qed.

Lemma key_leb_total a b : key_leb a b = true ∨ key_leb b a = true.
Proof.
  unfold key_leb. destruct (to_Q a) as [x|] eqn:Ha, (to_Q b) as [y|] eqn:Hb; auto.
  - apply Qle_bool_total.
  - destruct a, b; auto. apply String.leb_total.
Qed.

Lemma key_leb_trans a b c :
  notna b = true →
  key_leb a b = true → key_leb b c = true → key_leb a c = true.
Proof.
  unfold key_leb. intros Hb.
  destruct (to_Q a) as [x|] eqn:Ha, (to_Q b) as [y|] eqn:Hy, (to_Q c) as [z|] eqn:Hc;
    try done.
  - apply Qle_bool_trans.
  - destruct a, b, c; try done. apply String_leb_trans.
Qed.

Section Insertion_sort_on.
Context {A : Type} (leb : A → A → bool) (P : A → Prop).
Hypothesis leb_total : ∀ a b, leb a b = true ∨ leb b a = true.
Hypothesis leb_trans : ∀ a b c, P b → leb a b = true → leb b c = true → leb a c = true.

Lemma insert_sorted_sorted_on x l :
  P x → Forall P l →
  StronglySorted (λ a b, leb a b = true) l →
  StronglySorted (λ a b, leb a b = true) (insert_sorted leb x l).
Proof.
  intros Hx HP Hs. induction Hs as [|y l Hs IH Hy]; simpl.
  - repeat constructor.
  - apply Forall_cons in HP as [Py HP].
    destruct (leb x y) eqn:Hxy.
    + constructor; [by constructor|]. constructor; [done|].
      eapply Forall_impl; [exact Hy|]. intros z Hz. by apply (leb_trans x y z).
    + constructor; [by apply IH|].
      assert (leb y x = true) as Hyx by (by destruct (leb_total x y) as [Hc|Hc]; [congruence|]).
      rewrite Forall_forall. intros z Hz.
      rewrite insert_sorted_perm in Hz. apply elem_of_cons in Hz as [->|Hz]; [done|].
      rewrite Forall_forall in Hy. by apply Hy.
Qed.

Lemma stable_sort_sorted_on l :
  Forall P l → StronglySorted (λ a b, leb a b = true) (stable_sort leb l).
Proof.
  induction 1 as [|x l Hx HP IH]; simpl; [constructor|].
  apply insert_sorted_sorted_on; [done| |done].
  unfold stable_sort. change (foldr (insert_sorted leb) [] l) with (stable_sort leb l).
  by rewrite stable_sort_perm.
Qed.
End Insertion_sort_on.

(** Groups come in the order of their keys. *)
Lemma group_keys_sorted by_ df :
  StronglySorted (λ a b, key_leb a b = true) (group_keys by_ df).
Proof.
  unfold group_keys. apply (stable_sort_sorted_on key_leb (λ c, notna c = true)).
  - apply key_leb_total.
  - apply key_leb_trans.
  - apply Forall_forall. intros c Hc. apply (proj1 (elem_of_unique _ _)) in Hc.
    unfold dropna_cells in Hc. apply list_elem_of_filter in Hc as [Hc _].
    by apply Is_true_true.
Qed.

Lemma tally_cells df m :
  metrics_by_noc df = Ok m →
  columns m = metrics_cols
  ∧ cells_of "noc" (records m) = group_keys "noc" df
  ∧ cells_of "Total_Medals" (records m)
    = (λ k, Int (count_rows medal_present (group "noc" k df))) <$> group_keys "noc" df
  ∧ cells_of "Total_Athletes" (records m)
    = (λ k, Int (nunique (cells_of "name" (group "noc" k df)))) <$> group_keys "noc" df.
Proof.
  rewrite metrics_by_noc_eq.
  destruct (require_all df ["medal"; "noc"; "name"]); [|done]. simpl.
  intros [= <-]. simpl. split; [done|].
  unfold cells_of. rewrite <- !list_fmap_compose.
  split; [|split].
  - rewrite <- (list_fmap_id (group_keys "noc" df)) at 2.
    apply list_fmap_ext. intros i k _. simpl. by rewrite noc_metrics_setitem.
  - apply list_fmap_ext. intros i k _. simpl. by rewrite noc_metrics_setitem.
  - apply list_fmap_ext. intros i k _. simpl. by rewrite noc_metrics_setitem.
Qed.

(** X5.  The tally has exactly one row for each NOC that is present in the
    view, in the order of the codes; records without a NOC are in no
    group. *)
Theorem tally_one_row_per_noc (df m : DataFrame) :
  metrics_by_noc df = Ok m →
  columns m = metrics_cols
  ∧ NoDup (cells_of "noc" (records m))
  ∧ StronglySorted (λ a b, key_leb a b = true) (cells_of "noc" (records m))
  ∧ ∀ k, k ∈ cells_of "noc" (records m)
         ↔ notna k = true ∧ k ∈ cells_of "noc" (records df).
Proof.
  intros (Hcols & Hnoc & _)%tally_cells. rewrite Hnoc.
  split; [done|]. split; [apply NoDup_group_keys|]. split; [apply group_keys_sorted|].
  intros k. rewrite elem_of_group_keys. unfold cells_of. rewrite list_elem_of_fmap.
  split; intros [Hk (r & H1 & H2)]; (split; [done|]); exists r; by split.
Qed.

Lemma filter_ext_in {A} (P Q : A → Prop) `{∀ x, Decision (P x)} `{∀ x, Decision (Q x)}
    (l : list A) :
  (∀ x, x ∈ l → P x ↔ Q x) → filter P l = filter Q l.
Proof.
  induction l as [|x l IH]; intros HPQ; [done|].
  assert (filter P l = filter Q l) as IH' by (apply IH; intros y Hy; apply HPQ; by right).
  destruct (decide (P x)) as [HP|HP].
  - rewrite (filter_cons_True P) by done.
    rewrite (filter_cons_True Q) by (apply HPQ; [left|done]). by rewrite IH'.
  - rewrite (filter_cons_False P) by done.
    rewrite (filter_cons_False Q) by (intros HQ; apply HP, HPQ; [left|done]). done.
Qed.

(** X6.  No medal is lost and none is counted twice: the medal totals of the
    countries add up to the number of medal-winning participations of the
    view that name a country. *)
Theorem tally_conserves_medals (df m : DataFrame) :
  metrics_by_noc df = Ok m →
  sum_int (cells_of "Total_Medals" (records m))
  = count_rows (λ r, medal_present r && notna (r !!! "noc")) (records df).
Proof.
  intros (_ & _ & Hmedals & _)%tally_cells. rewrite Hmedals.
  unfold count_rows, group.
  erewrite list_fmap_ext; [|intros i k _; by rewrite filter_group_comm].
  rewrite (sum_int_groups (λ r, r !!! "noc")) by apply NoDup_group_keys.
  f_equal. f_equal. rewrite list_filter_filter.
  apply filter_ext_in. intros r Hr. rewrite elem_of_group_keys.
  rewrite andb_True, !Is_true_true. split.
  - intros [[Hna _] Hp]. done.
  - intros [Hp Hna]. split; [|done]. split; [done|]. by exists r.
Qed.

Lemma remove_dups_length_le {A} `{EqDecision A} (l : list A) :
  (length (remove_dups l) ≤ length l)%nat.
Proof.
  apply submseteq_length, NoDup_submseteq; [apply NoDup_remove_dups|].
  intros x. by rewrite elem_of_remove_dups.
Qed.

Lemma remove_dups_length_eq {A} `{EqDecision A} (l : list A) :
  length (remove_dups l) = length l ↔ NoDup l.
Proof.
  split.
  - intros Hlen. assert (remove_dups l ≡ₚ l) as <-; [|apply NoDup_remove_dups].
    apply submseteq_length_Permutation; [|lia].
    apply NoDup_submseteq; [apply NoDup_remove_dups|].
    intros x. by rewrite elem_of_remove_dups.
  - intros Hnd. apply Permutation_length, NoDup_Permutation;
      [apply NoDup_remove_dups|done|]. intros x. by rewrite elem_of_remove_dups.
Qed.

Lemma filter_length_eq {A} (P : A → Prop) `{∀ x, Decision (P x)} (l : list A) :
  length (filter P l) = length l ↔ ∀ x, x ∈ l → P x.
Proof.
  split.
  - intros Hlen x Hx. destruct (decide (P x)) as [|HP]; [done|].
    pose proof (length_filter_lt P l x Hx HP). lia.
  - intros Hall. induction l as [|x l IH]; [done|].
    rewrite filter_cons_True by (apply Hall; left). simpl. f_equal.
    apply IH. intros y Hy. apply Hall. by right.
Qed.

(** [nunique] counts values, not records: it never exceeds the number of
    records, and reaches it exactly when every record has a value and no
    value occurs twice. *)
Lemma nunique_bounds (l : list cell) :
  0 ≤ nunique l ≤ Z.of_nat (length l)
  ∧ (nunique l = Z.of_nat (length l) ↔ NoDup l ∧ ∀ c, c ∈ l → notna c = true).
Proof.
  unfold nunique, dropna_cells.
  pose proof (remove_dups_length_le (filter (λ c, notna c) l)) as H1.
  pose proof (length_filter (λ c, notna c) l) as H2.
  split; [lia|]. split.
  - intros Heq. assert (length (filter (λ c, notna c) l) = length l) as Hf by lia.
    assert (length (remove_dups (filter (λ c, notna c) l))
            = length (filter (λ c, notna c) l)) as Hd by lia.
    apply remove_dups_length_eq in Hd.
    pose proof (proj1 (filter_length_eq (λ c, notna c) l) Hf) as Hall.
    split; [|intros c Hc; by apply Is_true_true, Hall].
    assert (filter (λ c, notna c) l = l) as <-; [|done].
    clear -Hall. induction l as [|x l IH]; [done|].
    rewrite filter_cons_True by (apply Hall; left). f_equal.
    apply IH. intros y Hy. apply Hall. by right.
  - intros [Hnd Hall].
    assert (filter (λ c, notna c) l = l) as ->.
    { clear -Hall. induction l as [|x l IH]; [done|].
      rewrite filter_cons_True by (apply Is_true_true, Hall; left). f_equal.
      apply IH. intros y Hy. apply Hall. by right. }
    f_equal. by apply remove_dups_length_eq.
Qed.

(** X7.  A country's distinct-athlete count is at most the number of its
    participations, and equals it exactly when each of them has a name and
    no name occurs twice. *)
Theorem distinct_athletes_le_rows (df m : DataFrame) (g : row) :
  metrics_by_noc df = Ok m →
  g ∈ records m →
  let rows := group "noc" (g !!! "noc") df in
  ∃ n, g !! "Total_Athletes" = Some (Int n)
       ∧ 0 ≤ n ≤ Z.of_nat (length rows)
       ∧ (n = Z.of_nat (length rows)
          ↔ NoDup (cells_of "name" rows)
            ∧ ∀ r, r ∈ rows → notna (r !!! "name") = true).
Proof.
  rewrite metrics_by_noc_eq.
  destruct (require_all df ["medal"; "noc"; "name"]); [|done]. simpl.
  intros [= <-]. simpl. intros (k & -> & Hk)%list_elem_of_fmap.
  rewrite noc_metrics_setitem.
  rewrite lookup_total_insert_eq.
  exists (nunique (cells_of "name" (group "noc" k df))). split; [done|].
  pose proof (nunique_bounds (cells_of "name" (group "noc" k df))) as [Hb Heq].
  unfold cells_of in Hb, Heq. rewrite length_fmap in Hb, Heq.
  split; [exact Hb|]. unfold cells_of. rewrite Heq.
  split; intros [Hnd Hall]; (split; [done|]).
  - intros r Hr. apply Hall, list_elem_of_fmap. by exists r.
  - intros c (r & -> & Hr)%list_elem_of_fmap. by apply Hall.
Qed.

Lemma tally_one_row_per_noc_witness :
  metrics_by_noc scenario
  = Ok (mkFrame metrics_cols [tally_row "FRA" 1 1 0 1 0; tally_row "USA" 2 1 1 0 0])
  ∧ NoDup [Str "FRA"; Str "USA"].
Proof.
  assert (metrics_by_noc scenario
          = Ok (mkFrame metrics_cols [tally_row "FRA" 1 1 0 1 0; tally_row "USA" 2 1 1 0 0]))
    as Hm by (vm_compute; reflexivity).
  split; [exact Hm|]. exact (proj1 (proj2 (tally_one_row_per_noc _ _ Hm))).
Defined.

Lemma tally_conserves_medals_witness :
  metrics_by_noc scenario
  = Ok (mkFrame metrics_cols [tally_row "FRA" 1 1 0 1 0; tally_row "USA" 2 1 1 0 0])
  ∧ 1 + (1 + 0) = count_rows (λ r, medal_present r && notna (r !!! "noc")) (records scenario).
Proof.
  assert (metrics_by_noc scenario
          = Ok (mkFrame metrics_cols [tally_row "FRA" 1 1 0 1 0; tally_row "USA" 2 1 1 0 0]))
    as Hm by (vm_compute; reflexivity).
  split; [exact Hm|]. exact (tally_conserves_medals _ _ Hm).
Defined.

Lemma distinct_athletes_le_rows_witness :
  ∃ n, tally_row "USA" 2 1 1 0 0 !! "Total_Athletes" = Some (Int n)
       ∧ 0 ≤ n ≤ Z.of_nat (length (group "noc" (Str "USA") scenario)).
Proof.
  assert (metrics_by_noc scenario
          = Ok (mkFrame metrics_cols [tally_row "FRA" 1 1 0 1 0; tally_row "USA" 2 1 1 0 0]))
    as Hm by (vm_compute; reflexivity).
  assert (tally_row "USA" 2 1 1 0 0
          ∈ records (mkFrame metrics_cols
                       [tally_row "FRA" 1 1 0 1 0; tally_row "USA" 2 1 1 0 0])) as Hg
    by (right; left).
  destruct (distinct_athletes_le_rows _ _ _ Hm Hg) as (n & Hn & Hb & _).
  exists n. split; [exact Hn|exact Hb].
Defined.

(** ** Aggregator: when the tally can be computed *)

(** X8.  The tally depends on three columns and on nothing else: with ['medal'],
    ['noc'] and ['name'] in the view it is always computed — whatever the
    cells hold, and for a view without rows too — and without one of them it
    raises [KeyError]. *)
Theorem metrics_by_noc_total (df : DataFrame) :
  if has_column df "medal" && has_column df "noc" && has_column df "name"
  then ∃ m, metrics_by_noc df = Ok m ∧ columns m = metrics_cols
            ∧ length (records m) = length (group_keys "noc" df)
  else ∃ c, metrics_by_noc df = Raise (KeyError c) ∧ has_column df c = false.
Proof.
  rewrite metrics_by_noc_eq. simpl. unfold require.
  destruct (has_column df "medal") eqn:Hmedal; simpl; [|by exists "medal"].
  destruct (has_column df "noc") eqn:Hnoc; simpl; [|by exists "noc"].
  destruct (has_column df "name") eqn:Hname; simpl; [|by exists "name"].
  eexists. split; [done|]. split; [done|]. simpl. by rewrite length_fmap.
Qed.

(** ** Aggregator: athletes and countries *)

Lemma nunique_union (l a b : list cell) :
  (∀ c, c ∈ l → c ∈ a ∨ c ∈ b) → nunique l ≤ nunique a + nunique b.
Proof.
  intros Hl. unfold nunique, dropna_cells. rewrite <- Nat2Z.inj_add, <- length_app.
  apply inj_le, submseteq_length, NoDup_submseteq; [apply NoDup_remove_dups|].
  intros c Hc. apply elem_of_remove_dups, list_elem_of_filter in Hc as [Hna Hc].
  apply elem_of_app. destruct (Hl c Hc) as [Ha|Hb]; [left|right];
    by apply elem_of_remove_dups, list_elem_of_filter.
Qed.

Lemma nunique_groups (f : row → cell) (col : string) (ks : list cell) (l : list row) :
  nunique (cells_of col (filter (λ r, f r ∈ ks) l))
  ≤ sum_int ((λ k, Int (nunique (cells_of col (filter (λ r, f r = k) l)))) <$> ks).
Proof.
  induction ks as [|k ks IH].
  - assert (filter (λ r, f r ∈ []) l = []) as ->; [|done].
    induction l as [|r l IHl]; [done|]. by rewrite filter_cons_False by apply not_elem_of_nil.
  - rewrite fmap_cons. change (sum_int (?c :: ?cs)) with (int_of c + sum_int cs).
    simpl int_of. etrans; [|apply Z.add_le_mono_l, IH].
    apply nunique_union. intros c (r & -> & Hr)%list_elem_of_fmap.
    apply list_elem_of_filter in Hr as [Hk Hr].
    apply elem_of_cons in Hk as [Hk|Hk]; [left|right];
      apply list_elem_of_fmap; exists r; (split; [done|]); by apply list_elem_of_filter.
Qed.

(** X9.  An athlete counts once for every country they competed for: the
    distinct-athlete counts of the countries add up to at least the number
    of distinct athletes of the participations that name a country. *)
Theorem athletes_counted_per_country (df m : DataFrame) :
  metrics_by_noc df = Ok m →
  nunique (cells_of "name" (filter (λ r, notna (r !!! "noc")) (records df)))
  ≤ sum_int (cells_of "Total_Athletes" (records m)).
Proof.
  intros (_ & _ & _ & Hathletes)%tally_cells. rewrite Hathletes.
  assert (filter (λ r, notna (r !!! "noc")) (records df)
          = filter (λ r, r !!! "noc" ∈ group_keys "noc" df) (records df)) as ->.
  { apply filter_ext_in. intros r Hr. rewrite elem_of_group_keys, Is_true_true.
    split; [|by intros [? _]]. intros Hna. split; [done|]. by exists r. }
  apply (nunique_groups (λ r, r !!! "noc")).
Qed.

Lemma athletes_counted_per_country_witness :
  metrics_by_noc scenario
  = Ok (mkFrame metrics_cols [tally_row "FRA" 1 1 0 1 0; tally_row "USA" 2 1 1 0 0])
  ∧ nunique (cells_of "name" (filter (λ r, notna (r !!! "noc")) (records scenario)))
    ≤ 1 + (2 + 0).
Proof.
  assert (metrics_by_noc scenario
          = Ok (mkFrame metrics_cols [tally_row "FRA" 1 1 0 1 0; tally_row "USA" 2 1 1 0 0]))
    as Hm by (vm_compute; reflexivity).
  split; [exact Hm|]. exact (athletes_counted_per_country _ _ Hm).
Defined.

(** ** Aggregator: the age chart *)

Lemma isin_str_elem (s : string) (l : list cell) : isin (Str s) l = true → Str s ∈ l.
Proof.
  unfold isin. intros (v & Hv & Heq)%existsb_exists. apply list_elem_of_In in Hv.
  destruct v; try done. simpl in Heq. by apply String.eqb_eq in Heq as ->.
Qed.

(** X10.  The age chart keeps its promise of twenty disciplines: on a column of
    discipline names it has at most twenty bars, one for each of its
    disciplines, each of them a discipline of the view. *)
Theorem age_chart_shape (K : SortKind) (df t : DataFrame) :
  sorts K →
  (∀ r, r ∈ records df → r !!! "discipline" = NaN ∨ is_str (r !!! "discipline") = true) →
  age_by_discipline df = Ok (Some t) →
  (length (records t) ≤ 20)%nat
  ∧ NoDup (cells_of "discipline" (records t))
  ∧ ∀ g, g ∈ records t →
         notna (g !!! "discipline") = true
         ∧ g !!! "discipline" ∈ cells_of "discipline" (records df).
Proof.
  intros [Hperm _] Hnames. unfold age_by_discipline.
  destruct (_ && _); [|done].
  destruct (top_disciplines_by_athletes df) as [top|] eqn:Htop; [|done]. simpl.
  unfold sort_values, require. simpl. intros [= <-]. simpl.
  set (sel := loc_mask (λ r, isin (r !!! "discipline") top) df).
  change (mkFrame ["discipline"; "age"] _) with (mean_by "discipline" "age" sel).
  assert (cells_of "discipline" (records (mean_by "discipline" "age" sel))
          = group_keys "discipline" sel) as Hkeys.
  { unfold mean_by, cells_of. simpl. rewrite <- list_fmap_compose.
    rewrite <- (list_fmap_id (group_keys "discipline" sel)) at 2.
    apply list_fmap_ext. intros i k _. simpl. by rewrite lookup_total_insert_eq. }
  assert (cells_of "discipline" (sort_rows (λ r, to_Q (r !!! "age")) false
                                   (records (mean_by "discipline" "age" sel)))
          ≡ₚ group_keys "discipline" sel) as Hcells.
  { rewrite <- Hkeys. unfold cells_of. by rewrite Hperm. }
  assert (∀ k, k ∈ group_keys "discipline" sel →
               k ∈ top ∧ notna k = true ∧ k ∈ cells_of "discipline" (records df)) as Hsub.
  { intros k (Hna & r & Hr & <-)%elem_of_group_keys.
    apply elem_of_loc_mask in Hr as [Hisin Hr].
    split; [|split; [done|apply list_elem_of_fmap; by exists r]].
    destruct (Hnames r Hr) as [Hnan|Hstr]; [by rewrite Hnan in Hna|].
    destruct (r !!! "discipline") eqn:Hd; try done. by apply isin_str_elem. }
  split; [|split].
  - rewrite <- (length_fmap (λ r, r !!! "discipline")).
    fold (cells_of "discipline" (sort_rows (λ r, to_Q (r !!! "age")) false
                                   (records (mean_by "discipline" "age" sel)))).
    rewrite Hcells. trans (length top).
    + apply submseteq_length, NoDup_submseteq; [apply NoDup_group_keys|].
      intros k Hk. by apply Hsub.
    + unfold top_disciplines_by_athletes in Htop.
      destruct (athletes_per_discipline df); [|done]. cbn [mbind Exc_bind] in Htop.
      injection Htop as <-. unfold cells_of, nlargest. cbn [records].
      rewrite length_fmap, length_take. lia.
  - rewrite Hcells. apply NoDup_group_keys.
  - intros g Hg.
    assert (g !!! "discipline" ∈ group_keys "discipline" sel) as Hk.
    { rewrite <- Hcells. apply list_elem_of_fmap. by exists g. }
    by apply Hsub in Hk as (_ & ? & ?).
Qed.

Lemma age_chart_shape_witness :
  ∃ t, age_by_discipline (H := kind_stable) main_table = Ok (Some t)
       ∧ (length (records t) ≤ 20)%nat.
Proof.
  assert (∃ t, age_by_discipline (H := kind_stable) main_table = Ok (Some t)) as [t Ht]
    by (eexists; vm_compute; reflexivity).
  exists t. split; [exact Ht|].
  apply (age_chart_shape kind_stable main_table t kind_stable_sorts); [|exact Ht].
  intros r Hr. right. unfold main_table in Hr. simpl in Hr.
  repeat (apply elem_of_cons in Hr as [->|Hr]); [done..|by apply elem_of_nil in Hr].
Defined.

(** ** Aggregator: participation over time *)

Lemma NoDup_group_keys_n bys df : NoDup (group_keys_n bys df).
Proof. unfold group_keys_n. rewrite stable_sort_perm. apply NoDup_unique. Qed.

Lemma elem_of_group_keys_n bys df k :
  k ∈ group_keys_n bys df
  ↔ forallb notna k = true ∧ ∃ r, r ∈ records df ∧ key_tuple bys r = k.
Proof.
  unfold group_keys_n. rewrite stable_sort_perm, elem_of_unique, list_elem_of_filter.
  rewrite Is_true_true, list_elem_of_fmap. split.
  - intros [Hk (r & -> & Hr)]. split; [done|]. by exists r.
  - intros [Hk (r & Hr & <-)]. split; [done|]. by exists r.
Qed.

(** X11.  The area chart accounts for every participation that has both a year
    and a gender, once: no pair of year and gender is shown with a count of
    zero, and the counts add up to the number of those participations. *)
Theorem participation_over_time_counts (df t : DataFrame) :
  agg_n ["year"; "gender"] "Count" (λ g, Int (Z.of_nat (length g))) df = Ok t →
  (∀ g, g ∈ records t → ∃ n, g !! "Count" = Some (Int n) ∧ 1 ≤ n)
  ∧ sum_int (cells_of "Count" (records t))
    = count_rows (λ r, notna (r !!! "year") && notna (r !!! "gender")) (records df).
Proof.
  unfold agg_n. destruct (require_all df ["year"; "gender"]); [|done]. simpl.
  intros [= <-]. simpl. split.
  - intros g (k & -> & Hk)%list_elem_of_fmap.
    eexists. rewrite lookup_insert_eq. split; [done|].
    apply elem_of_group_keys_n in Hk as (_ & r & Hr & Hkey).
    assert (r ∈ filter (λ r, key_tuple ["year"; "gender"] r = k) (records df)) as Hin
      by (by apply list_elem_of_filter).
    destruct (filter _ (records df)); [by apply elem_of_nil in Hin|]. simpl. lia.
  - unfold cells_of. rewrite <- list_fmap_compose.
    erewrite list_fmap_ext;
      [|intros i k _; simpl; by rewrite lookup_total_insert_eq].
    rewrite (sum_int_groups (key_tuple ["year"; "gender"])) by apply NoDup_group_keys_n.
    unfold count_rows. f_equal. f_equal.
    apply filter_ext_in. intros r Hr. rewrite elem_of_group_keys_n.
    rewrite andb_True, !Is_true_true. simpl. rewrite andb_true_r, andb_true_iff.
    split.
    + by intros [Hna _].
    + intros Hna. split; [done|]. by exists r.
Qed.

Lemma participation_over_time_counts_witness :
  agg_n ["year"; "gender"] "Count" (λ g, Int (Z.of_nat (length g))) some_missing
  = Ok (mkFrame ["year"; "gender"; "Count"]
          [ {[ "year" := Int 2000; "gender" := Str "Male"; "Count" := Int 1 ]} ])
  ∧ 1 + 0
    = count_rows (λ r, notna (r !!! "year") && notna (r !!! "gender")) (records some_missing).
Proof.
  assert (agg_n ["year"; "gender"] "Count" (λ g, Int (Z.of_nat (length g))) some_missing
          = Ok (mkFrame ["year"; "gender"; "Count"]
                  [ {[ "year" := Int 2000; "gender" := Str "Male"; "Count" := Int 1 ]} ]))
    as Ht by (vm_compute; reflexivity).
  split; [exact Ht|]. exact (proj2 (participation_over_time_counts _ _ Ht)).
Defined.

(** ** Join Resolver: the rows of a left join *)

Lemma left_name_noc rc c : left_name "noc" rc c = "noc" → c = "noc".
Proof.
  unfold left_name. case_bool_decide as Hc; [|done].
  intros Hx. by destruct c as [|a [|b [|c0 [|d s]]]].
Qed.

Lemma joined_noc lc rc (l : row) (o : option row) :
  "noc" ∈ lc → joined "noc" lc rc l o !!! "noc" = l !!! "noc".
Proof.
  intros Hin. unfold joined.
  generalize ((λ c, (right_name lc c, from_option (λ r : row, r !!! c) NaN o))
                <$> filter (λ c, c ≠ "noc") rc).
  intros tail. induction lc as [|c lc IH]; [by apply elem_of_nil in Hin|].
  rewrite fmap_cons. simpl.
  destruct (decide (left_name "noc" rc c = "noc")) as [Hc|Hc].
  - rewrite Hc, lookup_total_insert_eq. by apply left_name_noc in Hc as ->.
  - rewrite lookup_total_insert_ne by done.
    apply elem_of_cons in Hin as [<-|Hin]; [|by apply IH].
    exfalso. apply Hc. unfold left_name. case_bool_decide as Hk; [|done].
    by destruct Hk as [Hk _].
Qed.

(** X12.  A left join on the NOC keeps every row of its left table, in order:
    the merged table has at least as many rows, and when the right table
    has at most one row for any NOC it has exactly the NOC column of the
    left table — nothing dropped, nothing repeated, nothing moved. *)
Theorem merge_left_keeps_rows (left right d : DataFrame) :
  merge_left "noc" left right = Ok d →
  (length (records left) ≤ length (records d))%nat
  ∧ ((∀ k, (length (filter (λ r, same_key k (r !!! "noc")) (records right)) ≤ 1)%nat) →
     cells_of "noc" (records d) = cells_of "noc" (records left)).
Proof.
  unfold merge_left, require. destruct (has_column left "noc") eqn:Hl; [|done].
  destruct (has_column right "noc"); [|done]. simpl. intros [= <-]. simpl.
  apply bool_decide_eq_true in Hl. split.
  - induction (records left) as [|l ls IH]; [done|].
    rewrite bind_cons, length_app. simpl.
    destruct (matches "noc" l right); simpl; lia.
  - intros Hone. induction (records left) as [|l ls IH]; [done|].
    rewrite bind_cons. unfold cells_of in *. rewrite fmap_app, IH, fmap_cons. clear IH.
    specialize (Hone (l !!! "noc")). unfold matches.
    destruct (filter _ (records right)) as [|m [|m' ms]]; simpl in *; [| |lia].
    + by rewrite joined_noc.
    + by rewrite joined_noc.
Qed.

Lemma merge_left_keeps_rows_witness :
  ∃ d, merge_left "noc" tied_countries sample_coords = Ok d
       ∧ cells_of "noc" (records d) = [Str "FRA"; Str "USA"].
Proof.
  assert (∃ d, merge_left "noc" tied_countries sample_coords = Ok d) as [d Hd]
    by (eexists; vm_compute; reflexivity).
  exists d. split; [exact Hd|].
  rewrite (proj2 (merge_left_keeps_rows _ _ _ Hd)); [reflexivity|].
  intros k. unfold sample_coords. simpl.
  rewrite filter_cons, filter_nil. destruct (decide _); simpl; lia.
Defined.

(** ** Record Store: the main table *)

Lemma missing_cols_nil (t : DataFrame) (cols : list string) :
  filter (λ col, col ∉ columns t) cols = [] ↔ forallb (has_column t) cols = true.
Proof.
  induction cols as [|c cols IH]; [done|]. simpl. unfold has_column at 1.
  destruct (decide (c ∈ columns t)) as [Hc|Hc].
  - rewrite filter_cons_False by (by intros ?). rewrite bool_decide_eq_true_2 by done.
    by rewrite IH.
  - rewrite filter_cons_True by done. rewrite bool_decide_eq_false_2 by done. done.
Qed.

(** X13.  Loading the main table never raises.  A table that has the nine
    essential columns is returned as it was read, every row of it, with one
    message that tells its size; in every other case the result is the
    empty frame, with one error message. *)
Theorem load_data_total (filepath : string) (file : csv_file) :
  ∃ df log,
    load_data filepath file = Ok (df, log)
    ∧ match file with
      | Table t =>
          if forallb (has_column t) essential_cols
          then df = t
               ∧ log = [st_success ("File '" ++ filepath ++ "' loaded successfully ("
                                    ++ format_thousands (length (records t)) ++ " rows).")]
          else df = empty_frame ∧ ∃ msg, log = [st_error msg]
      | Missing | Unreadable _ => df = empty_frame ∧ ∃ msg, log = [st_error msg]
      end.
Proof.
  destruct file as [|msg|t].
  - eexists _, _. split; [reflexivity|]. split; [done|]. by eexists.
  - eexists _, _. split; [reflexivity|]. split; [done|]. by eexists.
  - unfold load_data, read_csv. cbn [mbind Exc_bind].
    pose proof (missing_cols_nil t essential_cols) as Hnil.
    destruct (forallb (has_column t) essential_cols).
    + rewrite bool_decide_eq_true_2 by (by apply Hnil). eexists _, _.
      split; [reflexivity|]. done.
    + rewrite bool_decide_eq_false_2 by (intros Hm; by apply Hnil in Hm).
      eexists _, _. split; [reflexivity|]. split; [done|]. by eexists.
Qed.

(** ** The row count of the success message *)

Lemma group_digits_without_commas (ds : list ascii) (k : nat) :
  ","%char ∉ ds → filter (λ c, c ≠ ","%char) (group_digits ds k) = ds.
Proof.
  revert k. induction ds as [|d ds IH]; intros k Hds; [done|].
  apply not_elem_of_cons in Hds as [Hd Hds].
  assert (filter (λ c, c ≠ ","%char) (d :: group_digits ds (S k)) = d :: ds) as Hplain.
  { rewrite filter_cons_True by done. by rewrite IH. }
  simpl. destruct k as [|[|[|k]]]; try exact Hplain.
  destruct ds as [|d' ds]; [exact Hplain|].
  rewrite filter_cons_True by done. rewrite filter_cons_False by (by intros ?).
  by rewrite IH.
Qed.

Lemma digits_no_comma (d : Decimal.uint) :
  ","%char ∉ list_ascii_of_string (NilZero.string_of_uint d).
Proof.
  assert (∀ d, ","%char ∉ list_ascii_of_string (NilEmpty.string_of_uint d)) as Hd.
  { clear d. induction d; simpl; [apply not_elem_of_nil|..];
      (apply not_elem_of_cons; split; [done|exact IHd]). }
  destruct d; try apply Hd. simpl. apply not_elem_of_cons. split; [done|].
  apply not_elem_of_nil.
Qed.

Lemma string_of_uint_zero (d : Decimal.uint) :
  NilZero.string_of_uint d = "0" → Nat.of_uint d = 0%nat.
Proof.
  destruct d as [|d|d|d|d|d|d|d|d|d|d]; simpl; try done.
  by destruct d.
Qed.

Lemma group_digits_commas (ds : list ascii) (k i : nat) (c : ascii) :
  ","%char ∉ ds → (k ≤ 2)%nat →
  group_digits ds k !! i = Some c →
  c = ","%char ↔ ((i + k) mod 4 = 3)%nat.
Proof.
  revert k i. induction ds as [|d ds IH]; intros k i Hds Hk; [done|].
  apply not_elem_of_cons in Hds as [Hd Hds].
  assert (∀ i, (d :: group_digits ds (S k)) !! i = Some c → (k < 2)%nat ∨ ds = [] →
               c = ","%char ↔ ((i + k) mod 4 = 3)%nat) as Hplain.
  { intros [|j] Hj Hcase; simpl in Hj.
    - injection Hj as <-. split; [by intros ?|]. intros Hmod. exfalso.
      rewrite Nat.add_0_l, Nat.mod_small in Hmod by lia. lia.
    - destruct Hcase as [Hlt| ->]; [|by destruct j].
      rewrite (IH (S k) j) by (done || lia). by rewrite Nat.add_succ_r. }
  cbn [group_digits]. destruct k as [|[|[|k]]]; [by intros; apply Hplain; [|left; lia]
                                   |by intros; apply Hplain; [|left; lia]| |lia].
  destruct ds as [|d' ds]; [by intros; apply Hplain; [|right]|].
  destruct i as [|[|j]]; intros Hi; simpl in Hi.
  - injection Hi as <-. split; [by intros ?|]. by intros Hmod.
  - by injection Hi as <-.
  - rewrite (IH 0%nat j) by (done || lia).
    replace (S (S j) + 2)%nat with (j + 0 + 1 * 4)%nat by lia.
    by rewrite Nat.Div0.mod_add.
Qed.

(** X14.  The row count of the success message is the number of rows: without
    its commas it reads back as that number, and counted from the right
    every fourth character, and no other, is a comma. *)
Theorem thousands_round_trip (n : nat) :
  Nat.of_uint <$> NilZero.uint_of_string (without_commas (format_thousands n)) = Some n
  ∧ ∀ i c, reverse (list_ascii_of_string (format_thousands n)) !! i = Some c →
           c = ","%char ↔ (i mod 4 = 3)%nat.
Proof.
  unfold without_commas, format_thousands. rewrite list_ascii_of_string_of_list_ascii.
  pose proof (digits_no_comma (Nat.to_uint n)) as Hdigits.
  split.
  - rewrite filter_reverse, group_digits_without_commas
      by (by rewrite elem_of_reverse).
    rewrite reverse_involutive, string_of_list_ascii_of_string.
    destruct (NilZero.usu_gen (Nat.to_uint n)) as [-> | Hz].
    + simpl. by rewrite Unsigned.of_to.
    + rewrite Hz. simpl. f_equal. apply NilZero.sus in Hz. simpl in Hz.
      symmetry in Hz. apply string_of_uint_zero in Hz. by rewrite Unsigned.of_to in Hz.
  - intros i c. rewrite reverse_involutive. intros Hi.
    assert (","%char ∉ reverse (list_ascii_of_string
                                  (NilZero.string_of_uint (Nat.to_uint n)))) as Hrev
      by (by rewrite elem_of_reverse).
    rewrite (group_digits_commas _ 0 i c Hrev (Nat.le_0_l 2) Hi).
    by rewrite Nat.add_0_r.
Qed.

Lemma thousands_round_trip_witness :
  format_thousands 4321 = "4,321"
  ∧ (","%char = ","%char ↔ (3 mod 4 = 3)%nat).
Proof.
  split; [vm_compute; reflexivity|].
  apply (proj2 (thousands_round_trip 4321) 3%nat). vm_compute. reflexivity.
Defined.

(** ** The script and the pipeline *)

Lemma bind_run {A B} (m : Script A) (k : A → Script B) σ a σ' :
  m σ = (Ok a, σ') → (m ≫= k) σ = k a σ'.
Proof. intros Hm. unfold mbind, Script_bind. by rewrite Hm. Qed.

Lemma bind_raise {A B} (m : Script A) (k : A → Script B) σ e σ' :
  m σ = (Raise e, σ') → (m ≫= k) σ = (Raise e, σ').
Proof. intros Hm. unfold mbind, Script_bind. by rewrite Hm. Qed.

Lemma read_run ℓ σ d : heap σ !! ℓ = Some d → read ℓ σ = (Ok d, σ).
Proof. intros Hd. unfold read. by rewrite Hd. Qed.


Lemma extends_dom σ σ' : extends σ σ' → dom (heap σ) ⊆ dom (heap σ').
Proof.
  intros Hext ℓ Hℓ. pose proof (Hext ℓ Hℓ) as Heq.
  apply elem_of_dom in Hℓ as [d Hd]. apply elem_of_dom. exists d. by rewrite Heq.
Qed.


Lemma extends_new σ df :
  extends σ (mkSession (<[fresh (dom (heap σ)) := df]> (heap σ)) (shown σ)).
Proof.
  intros ℓ Hℓ. simpl. apply lookup_insert_ne. intros <-. by apply is_fresh in Hℓ.
Qed.


Lemma extends_lookup σ σ' ℓ d : extends σ σ' → heap σ !! ℓ = Some d → heap σ' !! ℓ = Some d.
Proof. intros Hext Hd. rewrite Hext; [done|]. apply elem_of_dom. by exists d. Qed.

Lemma new_run df σ :
  ∃ ℓ' σ', new df σ = (Ok ℓ', σ') ∧ heap σ' !! ℓ' = Some df
           ∧ (ℓ' ∉ dom (heap σ)) ∧ extends σ σ' ∧ shown σ' = shown σ.
Proof.
  eexists _, _. split; [reflexivity|]. simpl. rewrite lookup_insert_eq.
  split; [done|]. split; [apply is_fresh|]. split; [apply extends_new|done].
Qed.

Lemma derive_run f ℓ σ d d' :
  heap σ !! ℓ = Some d → f d = Ok d' →
  ∃ ℓ' σ', derive f ℓ σ = (Ok ℓ', σ') ∧ heap σ' !! ℓ' = Some d'
           ∧ (ℓ' ∉ dom (heap σ)) ∧ extends σ σ' ∧ shown σ' = shown σ.
Proof.
  intros Hd Hf. destruct (new_run d' σ) as (ℓ' & σ' & Hnew & Hrest).
  exists ℓ', σ'. split; [|done]. unfold derive.
  rewrite (bind_run _ _ _ _ _ (read_run _ _ _ Hd)).
  by rewrite (bind_run (lift (f d)) _ σ d' σ) by (by unfold lift; rewrite Hf).
Qed.

Lemma derive_raise f ℓ σ d e :
  heap σ !! ℓ = Some d → f d = Raise e → derive f ℓ σ = (Raise e, σ).
Proof.
  intros Hd Hf. unfold derive. rewrite (bind_run _ _ _ _ _ (read_run _ _ _ Hd)).
  apply bind_raise. unfold lift. by rewrite Hf.
Qed.

Lemma inplace_run f ℓ σ d d' :
  heap σ !! ℓ = Some d → f d = Ok d' →
  ∃ σ', inplace f ℓ σ = (Ok (), σ') ∧ heap σ' !! ℓ = Some d'
        ∧ (∀ ℓ0, ℓ0 ≠ ℓ → heap σ' !! ℓ0 = heap σ !! ℓ0)
        ∧ dom (heap σ') = dom (heap σ) ∧ shown σ' = shown σ.
Proof.
  intros Hd Hf. eexists. unfold inplace.
  rewrite (bind_run _ _ _ _ _ (read_run _ _ _ Hd)).
  rewrite (bind_run (lift (f d)) _ σ d' σ) by (by unfold lift; rewrite Hf).
  split; [reflexivity|]. simpl. rewrite lookup_insert_eq. split; [done|].
  split; [intros ℓ0 Hℓ0; by apply lookup_insert_ne|]. split; [|done].
  rewrite dom_insert_L. apply elem_of_dom_2 in Hd.
  by apply subseteq_union_1_L, singleton_subseteq_l.
Qed.

Lemma inplace_raise f ℓ σ d e :
  heap σ !! ℓ = Some d → f d = Raise e → inplace f ℓ σ = (Raise e, σ).
Proof.
  intros Hd Hf. unfold inplace. rewrite (bind_run _ _ _ _ _ (read_run _ _ _ Hd)).
  apply bind_raise. unfold lift. by rewrite Hf.
Qed.

Section Script_facts.
Context `{SortKind}.





(** X17.  When the filter cannot be computed the run fails with the filter's
    error: a missing year column is a [KeyError], a year column that is not
    numeric a [TypeError] — after the message about the column. *)
Theorem run_fails_as_filter w ℓo ℓc σ olympics e :
  heap σ !! ℓo = Some olympics →
  is_empty olympics = false →
  df_filtered "All" (sidebar w) olympics = Raise e →
  ∃ σ', dashboard w ℓo ℓc σ = (Raise e, σ')
        ∧ heap σ' = heap σ
        ∧ if has_column olympics "year"
          then e = TypeError "'>=' not supported between instances of 'str' and 'int'"
               ∧ shown σ'
                 = (shown σ
                    ++ [st_error "The 'year' column is not numeric or was not loaded properly."]
                    ++ sidebar_warnings olympics)%list
          else e = KeyError "year" ∧ shown σ' = shown σ.
Proof.
  intros Ho Hne Hd. unfold dashboard.
  rewrite (bind_run _ _ _ _ _ (read_run _ _ _ Ho)). rewrite Hne.
  unfold df_filtered in Hd. unfold require, require_numeric in *.
  destruct (has_column olympics "year") eqn:Hyear.
  - destruct (numeric_col olympics "year") eqn:Hnum; [done|].
    simpl in Hd. injection Hd as <-.
    rewrite (bind_run (lift (Ok ())) _ σ () σ) by done.
    rewrite (bind_run (st _) _ σ () _) by done.
    exists (mkSession (heap σ)
              (shown σ
               ++ [st_error "The 'year' column is not numeric or was not loaded properly."]
               ++ sidebar_warnings olympics)).
    split; [|done]. unfold sidebar_warnings.
    destruct (has_column olympics "type"), (has_column olympics "gender");
      repeat first [ erewrite (bind_run (mret ())) by reflexivity
                   | erewrite (bind_run (st _)) by reflexivity ];
      (erewrite bind_raise; [|reflexivity]); simpl; by rewrite <- ?app_assoc.
  - simpl in Hd. injection Hd as <-. exists σ. split; [|done].
    by apply bind_raise.
Qed.


(** X18.  The geographic tab computes the pipeline: its tally is [metrics_by_noc]
    of the view, its ranking [top_countries] of that tally and its map data
    [df_map_data] of the tally and the coordinates.  The view itself is left
    with the added column [medal_present]. *)
Theorem geo_tab_computes w ℓ ℓc σ d coords m t :
  ℓ ≠ ℓc →
  heap σ !! ℓ = Some d →
  heap σ !! ℓc = Some coords →
  metrics_by_noc d = Ok m →
  top_countries (geo_sort w) (geo_topn w) m = Ok t →
  match df_map_data m coords with
  | Raise e => (tab_geo w ℓ ℓc σ).1 = Raise e
  | Ok o =>
      ∃ ℓm ℓt rest σ',
        tab_geo w ℓ ℓc σ = (Ok (ℓm :: ℓt :: rest), σ')
        ∧ heap σ' !! ℓm = Some m
        ∧ heap σ' !! ℓt = Some t
        ∧ heap σ' !! ℓ = Some (setitem "medal_present" (λ r, Bool (medal_present r)) d)
        ∧ heap σ' !! ℓc = Some coords
        ∧ match o with
          | Some md => ∃ ℓp ℓmd, rest = [ℓp; ℓmd] ∧ heap σ' !! ℓmd = Some md
          | None => rest = []
          end
  end.
Proof.
  intros Hne Hd Hc Hm Ht. unfold metrics_by_noc in Hm.
  destruct (add_medal_present d) as [d'|] eqn:Hadd; [|done]. simpl in Hm.
  destruct (agg_by_noc d') as [a|] eqn:Hagg; [|done]. simpl in Hm.
  assert (d' = setitem "medal_present" (λ r, Bool (medal_present r)) d) as Hd'.
  { unfold add_medal_present in Hadd. destruct (require d "medal"); [|done].
    simpl in Hadd. by injection Hadd. }
  unfold tab_geo.
  destruct (inplace_run _ _ _ _ _ Hd Hadd) as (σ1 & R1 & L1 & O1 & D1 & S1).
  rewrite (bind_run _ _ _ _ _ R1).
  destruct (derive_run _ _ _ _ _ L1 Hagg) as (ℓm & σ2 & R2 & L2 & F2 & E2 & S2).
  rewrite (bind_run _ _ _ _ _ R2).
  destruct (inplace_run _ _ _ _ _ L2 Hm) as (σ3 & R3 & L3 & O3 & D3 & S3).
  rewrite (bind_run _ _ _ _ _ R3).
  destruct (derive_run _ _ _ _ _ L3 Ht) as (ℓt & σ4 & R4 & L4 & F4 & E4 & S4).
  rewrite (bind_run _ _ _ _ _ R4).
  assert (ℓ ∈ dom (heap σ1)) as Hℓ1 by (by apply elem_of_dom_2 in L1).
  assert (ℓc ∈ dom (heap σ1)) as Hc1 by (rewrite D1; by apply elem_of_dom_2 in Hc).
  assert (ℓ ≠ ℓm) as Hℓm by (by intros ->).
  assert (ℓc ≠ ℓm) as Hcm by (by intros ->).
  assert (heap σ3 !! ℓ = Some d') as Hℓ3
    by (rewrite O3 by done; by apply (extends_lookup σ1 σ2)).
  assert (heap σ3 !! ℓc = Some coords) as Hc3.
  { rewrite O3 by done. apply (extends_lookup σ1 σ2); [done|]. by rewrite O1. }
  assert (heap σ4 !! ℓc = Some coords) as Hc4 by (by apply (extends_lookup σ3 σ4)).
  assert (heap σ4 !! ℓm = Some m) as Hm4 by (by apply (extends_lookup σ3 σ4)).
  assert (heap σ4 !! ℓ = Some d') as Hℓ4 by (by apply (extends_lookup σ3 σ4)).
  rewrite (bind_run _ _ _ _ _ (read_run _ _ _ Hc4)).
  rewrite (bind_run _ _ _ _ _ (read_run _ _ _ Hm4)).
  set (pos := loc_mask (λ r, gt_scalar (r !!! "Total_Medals") 0) m).
  destruct (negb (is_empty coords) && has_column m "noc") eqn:Hguard.
  2:{ assert (df_map_data m coords = Ok None) as ->
        by (unfold df_map_data; by rewrite Hguard).
      eexists ℓm, ℓt, [], _. split; [reflexivity|]. simpl. by rewrite <- Hd'. }
  destruct (has_column m "Total_Medals") eqn:Htotal.
  2:{ assert (df_map_data m coords = Raise (KeyError "Total_Medals")) as ->
        by (unfold df_map_data, require; by rewrite Hguard, Htotal).
      erewrite bind_raise; [done|]. apply bind_raise. unfold require. by rewrite Htotal. }
  assert (∀ (k : loc → Script (list loc)) σ0,
            (_ ← lift (require m "Total_Medals"); p ← new pos; k p) σ0
            = (new pos ≫= k) σ0) as Hskip.
  { intros k σ0. rewrite (bind_run (lift _) _ σ0 () σ0); [done|].
    unfold require. by rewrite Htotal. }
  destruct (new_run pos σ4) as (ℓp & σ5 & R5 & L5 & F5 & E5 & S5).
  destruct (merge_left "noc" pos coords) as [mg|e] eqn:Hmerge.
  2:{ assert (df_map_data m coords = Raise e) as ->.
      { unfold df_map_data, require. rewrite Hguard, Htotal. simpl.
        fold pos. by rewrite Hmerge. }
      erewrite bind_raise; [done|]. rewrite Hskip. rewrite (bind_run _ _ _ _ _ R5).
      apply bind_raise. by apply (derive_raise _ _ _ pos). }
  destruct (derive_run (λ l, merge_left "noc" l coords) _ _ _ _ L5 Hmerge)
    as (ℓg & σ6 & R6 & L6 & F6 & E6 & S6).
  destruct (dropna ["latitude"; "longitude"] mg) as [md|e] eqn:Hdrop.
  2:{ assert (df_map_data m coords = Raise e) as ->.
      { unfold df_map_data, require. rewrite Hguard, Htotal. simpl.
        fold pos. rewrite Hmerge. simpl. by rewrite Hdrop. }
      erewrite bind_raise; [done|]. rewrite Hskip. rewrite (bind_run _ _ _ _ _ R5).
      rewrite (bind_run _ _ _ _ _ R6). apply bind_raise.
      by apply (inplace_raise _ _ _ mg). }
  assert (df_map_data m coords = Ok (Some md)) as ->.
  { unfold df_map_data, require. rewrite Hguard, Htotal. simpl.
    fold pos. rewrite Hmerge. simpl. by rewrite Hdrop. }
  destruct (inplace_run _ _ _ _ _ L6 Hdrop) as (σ7 & R7 & L7 & O7 & D7 & S7).
  assert (∀ ℓ0 v, heap σ4 !! ℓ0 = Some v → heap σ7 !! ℓ0 = Some v) as Hkeep.
  { intros ℓ0 v Hv. rewrite O7.
    - apply (extends_lookup σ5 σ6); [done|]. by apply (extends_lookup σ4 σ5).
    - intros ->. apply F6, (extends_dom σ4 σ5); [done|]. by apply elem_of_dom_2 in Hv. }
  assert (∃ σ8, (_ ← (if is_empty md
                      then st (st_warning "Could not merge medal data with coordinates for the map.")
                      else mret ());
                 mret [ℓp; ℓg]) σ7 = (Ok [ℓp; ℓg], σ8) ∧ heap σ8 = heap σ7)
    as (σ8 & R8 & H8).
  { destruct (is_empty md); eexists; (split; [reflexivity|done]). }
  exists ℓm, ℓt, [ℓp; ℓg], σ8. rewrite H8. split.
  - erewrite (bind_run (_ ≫= _)); [reflexivity|].
    rewrite Hskip. rewrite (bind_run _ _ _ _ _ R5). rewrite (bind_run _ _ _ _ _ R6).
    rewrite (bind_run _ _ _ _ _ R7). rewrite (bind_run _ _ _ _ _ (read_run _ _ _ L7)).
    exact R8.
  - rewrite <- Hd'. repeat split; try by apply Hkeep.
    exists ℓp, ℓg. by split.
Qed.

End Script_facts.



Lemma run_fails_as_filter_witness :
  ∃ σ', dashboard (H := kind_stable) first_run 0 1 loaded_text_year
        = (Raise (TypeError "'>=' not supported between instances of 'str' and 'int'"), σ')
        ∧ shown σ'
          = [st_error "The 'year' column is not numeric or was not loaded properly.";
             st_warning "'type' column not found. Cannot filter by game type."].
Proof.
  assert (df_filtered "All" (sidebar first_run) text_year
          = Raise (TypeError "'>=' not supported between instances of 'str' and 'int'"))
    as Hd by (vm_compute; reflexivity).
  destruct (run_fails_as_filter (H := kind_stable) first_run 0 1 loaded_text_year text_year _
              eq_refl eq_refl Hd) as (σ' & Hrun & _ & Hshown).
  exists σ'. split; [exact Hrun|]. exact (proj2 Hshown).
Defined.

Lemma geo_tab_computes_witness :
  ∃ ℓm ℓt rest σ',
    tab_geo (H := kind_stable) first_run 0 1 loaded = (Ok (ℓm :: ℓt :: rest), σ')
    ∧ heap σ' !! ℓm = Some main_tally ∧ heap σ' !! ℓt = Some main_tally.
Proof.
  assert (metrics_by_noc main_table = Ok main_tally) as Hm by (vm_compute; reflexivity).
  assert (top_countries (H := kind_stable) (geo_sort first_run) (geo_topn first_run) main_tally
          = Ok main_tally) as Ht by (vm_compute; reflexivity).
  assert ((0 : loc) ≠ 1)%nat as Hne by done.
  pose proof (geo_tab_computes (H := kind_stable) first_run 0 1 loaded main_table
                sample_coords main_tally main_tally Hne eq_refl eq_refl Hm Ht) as Hgeo.
  destruct (df_map_data main_tally sample_coords) as [o|e] eqn:Hmap;
    [|vm_compute in Hmap; discriminate].
  destruct Hgeo as (ℓm & ℓt & rest & σ' & Hrun & H1 & H2 & _).
  exists ℓm, ℓt, rest, σ'. split; [exact Hrun|]. split; [exact H1|exact H2].
Defined.

(** ** A run that cannot fail *)





Section Runs.
Context `{SortKind}.









End Runs.


(** ** The sidebar of the apps *)

Lemma col_eq_when (active : bool) c sel d v :
  (if active then col_eq c sel d else Ok d) = Ok v →
  v = loc_mask (λ r, negb active || eq_str (r !!! c) sel) d.
Proof.
  destruct active; simpl.
  - unfold col_eq. destruct (require d c); [|done]. simpl. by intros [= <-].
  - intros [= <-]. symmetry. by apply loc_mask_all.
Qed.

Lemma skipped_or (s all : string) (b : bool) :
  negb (negb (String.eqb s all)) || b = true ↔ s = all ∨ b = true.
Proof.
  destruct (String.eqb_spec s all) as [->|Hs]; simpl.
  - split; [by left|done].
  - split; [by right|]. by intros [?|?].
Qed.

(** X20.  What the view of the apps holds: the participations of the chosen
    games that pass every filter in use, in their original order.  A
    participation without a medal passes the medal filter only when it is
    left at ['Todas']. *)
Theorem df_tipo_selects (f : filtros) (df d : DataFrame) :
  df_tipo f df = Ok d →
  columns d = columns df
  ∧ records d `sublist_of` records df
  ∧ ∀ r, r ∈ records d
         ↔ r ∈ records df
           ∧ eq_str (r !!! "type")
               (if String.eqb (tipo_juego f) "Verano" then "Summer" else "Winter") = true
           ∧ (pais f = "Todos" ∨ eq_str (r !!! "noc") (pais f) = true)
           ∧ (medalla f = "Todas" ∨ eq_str (r !!! "medal") (medalla f) = true)
           ∧ (genero f = "Ambos" ∨ eq_str (r !!! "gender") (genero f) = true).
Proof.
  unfold df_tipo.
  destruct (col_eq "type" _ df) as [d1|] eqn:H1; [|done]. simpl.
  destruct (if negb (String.eqb (pais f) "Todos") then _ else _) as [d2|] eqn:H2; [|done].
  simpl.
  destruct (if negb (String.eqb (medalla f) "Todas") then _ else _) as [d3|] eqn:H3; [|done].
  simpl. intros H4.
  apply (col_eq_when true) in H1. apply col_eq_when in H2, H3, H4.
  subst d d3 d2 d1. rewrite !loc_mask_loc_mask.
  split; [done|]. split; [apply sublist_filter|].
  intros r. rewrite elem_of_loc_mask, !andb_true_iff, !skipped_or. simpl. tauto.
Qed.

Lemma df_tipo_selects_witness :
  df_tipo (mkFiltros "Verano" "USA" "Gold" "Ambos") main_table
  = Ok (mkFrame essential_cols
          [participation 2000 (Str "Summer") (Str "USA") (Str "Gold") (Float (20 # 1))
             (Str "Male") (Str "Aquatics") (Str "A") (Str "Swimming")])
  ∧ [participation 2000 (Str "Summer") (Str "USA") (Str "Gold") (Float (20 # 1))
       (Str "Male") (Str "Aquatics") (Str "A") (Str "Swimming")]
    `sublist_of` records main_table.
Proof.
  assert (df_tipo (mkFiltros "Verano" "USA" "Gold" "Ambos") main_table
          = Ok (mkFrame essential_cols
                  [participation 2000 (Str "Summer") (Str "USA") (Str "Gold") (Float (20 # 1))
                     (Str "Male") (Str "Aquatics") (Str "A") (Str "Swimming")])) as Hd
    by (vm_compute; reflexivity).
  split; [exact Hd|]. exact (proj1 (proj2 (df_tipo_selects _ _ _ Hd))).
Defined.

(** ** The country options of the apps *)

Lemma np_sort_perm l s : np_sort l = Ok s → s ≡ₚ l.
Proof.
  unfold np_sort. destruct (_ || _); [|done]. intros [= <-]. apply stable_sort_perm.
Qed.

(** X21.  The country selectbox of [app_corregido.py] offers each country of the
    chosen games once, in the order of the codes, and every option it
    offers selects at least one participation. *)
Theorem country_options (d : DataFrame) (opts : list cell) :
  paises true d = Ok opts →
  NoDup opts
  ∧ StronglySorted (λ a b, key_leb a b = true) opts
  ∧ (∀ o, o ∈ opts ↔ notna o = true ∧ o ∈ cells_of "noc" (records d))
  ∧ (∀ s, Str s ∈ opts → ∃ v, col_eq "noc" s d = Ok v ∧ records v ≠ []).
Proof.
  unfold paises, require. destruct (has_column d "noc") eqn:Hcol; [|done]. simpl.
  unfold np_sort. destruct (_ || _); [|done]. intros [= <-].
  change (stable_sort key_leb (unique (dropna_cells (cells_of "noc" (records d)))))
    with (group_keys "noc" d).
  split; [apply NoDup_group_keys|]. split; [apply group_keys_sorted|].
  assert (∀ o, o ∈ group_keys "noc" d ↔ notna o = true ∧ o ∈ cells_of "noc" (records d))
    as Hin.
  { intros o. rewrite elem_of_group_keys. unfold cells_of. rewrite list_elem_of_fmap.
    split; intros [Ho (r & H1 & H2)]; (split; [done|]); exists r; by split. }
  split; [exact Hin|]. intros s Hs. apply Hin in Hs as [_ Hs].
  unfold cells_of in Hs. apply list_elem_of_fmap in Hs as (r & Hr & Hin').
  unfold col_eq, require. rewrite Hcol. simpl. eexists. split; [done|].
  assert (r ∈ records (loc_mask (λ r, eq_str (r !!! "noc") s) d)) as Hv.
  { apply elem_of_loc_mask. split; [|done]. rewrite <- Hr. rewrite eq_str_Str.
    apply String.eqb_refl. }
  intros Hnil. rewrite Hnil in Hv. by apply elem_of_nil in Hv.
Qed.

Lemma country_options_witness :
  paises true some_null_noc = Ok [Str "FRA"; Str "USA"]
  ∧ ∃ v, col_eq "noc" "FRA" some_null_noc = Ok v ∧ records v ≠ [].
Proof.
  assert (paises true some_null_noc = Ok [Str "FRA"; Str "USA"]) as Hopts
    by (vm_compute; reflexivity).
  split; [exact Hopts|].
  apply (proj2 (proj2 (proj2 (country_options _ _ Hopts)))). left.
Defined.

Lemma forallb_true_iff {A} (f : A → bool) (l : list A) :
  forallb f l = true ↔ ∀ x, x ∈ l → f x = true.
Proof.
  rewrite forallb_forall. split; intros Hf x Hx; by apply Hf, list_elem_of_In.
Qed.

(** X22.  What [dropna()] is there for: on a column of codes, the options of
    [app_corregido.py] can always be computed, whereas those of [app.py]
    cannot as soon as one participation of the chosen games has a code and
    another has none; when no code is missing the two agree. *)
Theorem country_options_need_dropna (d : DataFrame) :
  has_column d "noc" = true →
  (∀ r, r ∈ records d → r !!! "noc" = NaN ∨ is_str (r !!! "noc") = true) →
  (∃ opts, paises true d = Ok opts)
  ∧ ((∃ r, r ∈ records d ∧ r !!! "noc" = NaN) →
     (∃ r, r ∈ records d ∧ is_str (r !!! "noc") = true) →
     ∃ msg, paises false d = Raise (TypeError msg))
  ∧ ((∀ r, r ∈ records d → notna (r !!! "noc") = true) →
     paises false d = paises true d).
Proof.
  intros Hcol Hcodes. unfold paises, require. rewrite Hcol. simpl. split; [|split].
  - eexists. unfold np_sort.
    assert (forallb is_str (unique (dropna_cells (cells_of "noc" (records d)))) = true) as ->;
      [|done].
    apply forallb_true_iff. intros c Hc. apply (proj1 (elem_of_unique _ _)) in Hc.
    apply list_elem_of_filter in Hc as [Hna Hc]. apply Is_true_true in Hna.
    apply list_elem_of_fmap in Hc as (r & -> & Hr).
    destruct (Hcodes r Hr) as [Hnan|Hstr]; [by rewrite Hnan in Hna|done].
  - intros (r1 & Hr1 & Hnan) (r2 & Hr2 & Hstr). eexists. unfold np_sort.
    assert (forallb is_str (unique (cells_of "noc" (records d))) = false) as ->.
    { apply not_true_is_false. rewrite forallb_true_iff. intros Hall.
      specialize (Hall NaN). rewrite elem_of_unique in Hall.
      assert (is_str NaN = true); [|done]. apply Hall.
      apply list_elem_of_fmap. by exists r1. }
    assert (forallb (λ c, negb (is_str c)) (unique (cells_of "noc" (records d))) = false) as ->.
    { apply not_true_is_false. rewrite forallb_true_iff. intros Hall.
      specialize (Hall (r2 !!! "noc")). rewrite elem_of_unique in Hall.
      rewrite Hstr in Hall. assert (negb true = true); [|done]. apply Hall.
      apply list_elem_of_fmap. by exists r2. }
    done.
  - intros Hall. do 2 f_equal. symmetry. unfold dropna_cells.
    induction (records d) as [|r rs IH]; [done|].
    simpl. rewrite filter_cons_True by (apply Is_true_true, Hall; left).
    f_equal. apply IH.
    + intros r' Hr'. apply Hcodes. by right.
    + intros r' Hr'. apply Hall. by right.
Qed.

Lemma country_options_need_dropna_witness :
  (∃ opts, paises true some_null_noc = Ok opts)
  ∧ ∃ msg, paises false some_null_noc = Raise (TypeError msg).
Proof.
  assert (∀ r, r ∈ records some_null_noc →
               r !!! "noc" = NaN ∨ is_str (r !!! "noc") = true) as Hcodes.
  { intros r Hr. unfold some_null_noc in Hr. simpl in Hr.
    repeat (apply elem_of_cons in Hr as [->|Hr]); [| | |by apply elem_of_nil in Hr].
    - by right.
    - by left.
    - by right. }
  destruct (country_options_need_dropna some_null_noc eq_refl Hcodes) as (Hok & Hcrash & _).
  split; [exact Hok|]. apply Hcrash.
  - exists {[ "noc" := NaN; "medal" := Str "Silver" ]}. split; [right; left|done].
  - exists {[ "noc" := Str "USA"; "medal" := Str "Gold" ]}. split; [left|done].
Defined.

(** ** The medal chart of the apps *)

Lemma isin_medals (c : cell) :
  Z.b2z (isin c medals)
  = Z.b2z (eq_str c "Gold") + Z.b2z (eq_str c "Silver") + Z.b2z (eq_str c "Bronze").
Proof.
  destruct c as [|s|z|q|b]; try done. unfold isin, medals, eq_str. simpl.
  destruct (String.eqb_spec s "Gold") as [->|?]; [done|].
  destruct (String.eqb_spec s "Silver") as [->|?]; [done|].
  by destruct (String.eqb_spec s "Bronze") as [->|?].
Qed.

Lemma count_rows_medals (l : list row) :
  count_rows (λ r, isin (r !!! "medal") medals) l
  = count_rows (λ r, eq_str (r !!! "medal") "Gold") l
    + count_rows (λ r, eq_str (r !!! "medal") "Silver") l
    + count_rows (λ r, eq_str (r !!! "medal") "Bronze") l.
Proof.
  induction l as [|r l IH]; [done|].
  rewrite !count_rows_cons, IH, isin_medals. lia.
Qed.

Lemma isin_medals_notna (c : cell) : isin c medals = true → notna c = true.
Proof. by destruct c. Qed.

Lemma count_by_medalled (df : DataFrame) (k : cell) :
  Z.of_nat (length (dropna_cells
                      (cells_of "medal"
                         (group "noc" k (loc_mask (λ r, isin (r !!! "medal") medals) df)))))
  = count_rows (λ r, isin (r !!! "medal") medals) (group "noc" k df).
Proof.
  unfold count_rows, group, loc_mask. simpl. rewrite <- filter_group_comm.
  f_equal. unfold dropna_cells, cells_of.
  assert (∀ l : list row, (∀ r, r ∈ l → isin (r !!! "medal") medals = true) →
            length (filter (λ c, notna c) ((λ r, r !!! "medal") <$> l)) = length l) as Hlen.
  { induction l as [|r l IH]; intros Hall; [done|].
    rewrite fmap_cons, filter_cons_True
      by (apply Is_true_true, isin_medals_notna, Hall; left).
    simpl. f_equal. apply IH. intros r' Hr'. apply Hall. by right. }
  apply Hlen. intros r Hr. apply list_elem_of_filter in Hr as [Hr _].
  by apply Is_true_true.
Qed.

(** X23.  The bar chart of the apps and the tally of the dashboards agree: the
    bar of a country is as high as its gold, silver and bronze counts
    together, and no country without a medal gets a bar. *)
Theorem medal_chart_matches_tally (K : SortKind) (df t m : DataFrame) (g : row) :
  sorts K →
  medallas_pais df = Ok t →
  metrics_by_noc df = Ok m →
  g ∈ records t →
  ∃ r gold silver bronze,
    r ∈ records m ∧ r !!! "noc" = g !!! "noc"
    ∧ r !! "Gold" = Some (Int gold) ∧ r !! "Silver" = Some (Int silver)
    ∧ r !! "Bronze" = Some (Int bronze)
    ∧ g !! "medal" = Some (Int (gold + silver + bronze))
    ∧ 1 ≤ gold + silver + bronze.
Proof.
  intros [Hperm _]. unfold medallas_pais, count_by, sort_values, require.
  destruct (has_column df "medal") eqn:Hmedal; [|done]. simpl.
  rewrite !has_column_loc_mask, Hmedal.
  destruct (has_column df "noc") eqn:Hnoc; [|done]. simpl.
  intros [= <-]. rewrite metrics_by_noc_eq.
  destruct (require_all df ["medal"; "noc"; "name"]); [|done]. simpl.
  intros [= <-]. simpl. intros Hg%subseteq_take.
  rewrite Hperm in Hg. apply list_elem_of_fmap in Hg as (k & -> & Hk).
  apply elem_of_group_keys in Hk as (Hna & r0 & Hr0 & Hk0).
  apply elem_of_loc_mask in Hr0 as [Hmed Hr0].
  eexists (noc_metrics _ k), _, _, _. split; [|split; [|split; [|split; [|split; [|split]]]]].
  - apply list_elem_of_fmap. exists k. split; [done|].
    apply elem_of_group_keys. split; [done|]. by exists r0.
  - rewrite noc_metrics_setitem. by rewrite !lookup_total_insert_eq.
  - rewrite noc_metrics_setitem. reflexivity.
  - rewrite noc_metrics_setitem. reflexivity.
  - rewrite noc_metrics_setitem. reflexivity.
  - rewrite lookup_insert_ne by done. rewrite lookup_singleton_eq.
    by rewrite count_by_medalled, count_rows_medals.
  - rewrite <- count_rows_medals.
    pose proof (count_rows_nonneg (λ r, isin (r !!! "medal") medals) (group "noc" k df)).
    assert (count_rows (λ r, isin (r !!! "medal") medals) (group "noc" k df) ≠ 0); [|lia].
    intros Hz. assert (isin (r0 !!! "medal") medals = false); [|congruence].
    apply (proj1 (count_rows_zero _ _) Hz). by apply elem_of_group.
Qed.

Lemma medal_chart_matches_tally_witness :
  medallas_pais (H := kind_stable) scenario
  = Ok (mkFrame ["noc"; "medal"]
          [ {[ "noc" := Str "FRA"; "medal" := Int 1 ]};
            {[ "noc" := Str "USA"; "medal" := Int 1 ]} ])
  ∧ ∃ r gold silver bronze,
      r ∈ records main_tally
      ∧ r !! "Gold" = Some (Int gold) ∧ r !! "Silver" = Some (Int silver)
      ∧ r !! "Bronze" = Some (Int bronze)
      ∧ ({[ "noc" := Str "USA"; "medal" := Int 1 ]} : row) !! "medal"
        = Some (Int (gold + silver + bronze)).
Proof.
  assert (medallas_pais (H := kind_stable) scenario
          = Ok (mkFrame ["noc"; "medal"]
                  [ {[ "noc" := Str "FRA"; "medal" := Int 1 ]};
                    {[ "noc" := Str "USA"; "medal" := Int 1 ]} ])) as Ht
    by (vm_compute; reflexivity).
  assert (metrics_by_noc scenario = Ok main_tally) as Hm by (vm_compute; reflexivity).
  split; [exact Ht|].
  destruct (medal_chart_matches_tally kind_stable scenario _ _
              {[ "noc" := Str "USA"; "medal" := Int 1 ]} kind_stable_sorts Ht Hm)
    as (r & gold & silver & bronze & Hr & _ & Hg & Hs & Hb & Hsum & _); [right; left|].
  exists r, gold, silver, bronze. done.
Defined.
